(** * The repository pattern example: two backends behind [IStoreRepository]

    A shallow embedding of [src/repositories/in-memory.repo.ts] and
    [src/repositories/file.repo.ts], of the public model types, and of the
    pieces of the JavaScript runtime those files call ([String], [Number],
    [Date], [Array.prototype.find]/[findIndex]/[splice], promises).

    Conventions of the embedding.
    - A JavaScript [number] used as an id is an integer or [NaN]; fractional
      and infinite doubles are outside the model.
    - A [Date] is its time value: milliseconds since the epoch, or invalid.
    - Every evaluation of [new Date()] is an explicit argument of the
      operation that performs it, in evaluation order: the system clock is
      an input of the program.
    - A promise is described by how it settles: resolved, rejected, or
      never settled. *)

From Stdlib Require Import ZArith Lia Bool Ascii String DecimalString DecimalZ DecimalPos.
From stdpp Require Import base option list.

Local Open Scope string_scope.
Local Open Scope list_scope.

(** ** JavaScript runtime *)

(** *** Numbers and their conversion to and from text *)

Inductive number : Type :=
| Num (z : Z)
| NaN.

(** [a === b] on numbers: [NaN] is different from everything, itself included. *)
Definition number_eqb (a b : number) : bool :=
  match a, b with
  | Num x, Num y => Z.eqb x y
  | _, _ => false
  end.

(** [String(n)] for a number [n], in plain decimal. ([String] changes to
    the exponent notation from 1e21 on, far beyond any length of an
    array.) *)
Definition String_ (n : number) : string :=
  match n with
  | Num z => NilZero.string_of_int (Z.to_int z)
  | NaN => "NaN"
  end.

(** [String(s)] for a value that is already a string. *)
Definition String_of_string (s : string) : string := s.

(** [Number(s)]: decimal integer literals with an optional minus sign; the
    empty string is [0]; anything else is [NaN]. ([Number] also reads the
    white space, exponent, hexadecimal and fraction forms and rounds
    beyond 2^53; none of these is the text [String] gives for the length
    of an array plus one.) *)
Definition Number_ (s : string) : number :=
  match s with
  | EmptyString => Num 0
  | _ => match NilZero.int_of_string s with
         | Some d => Num (Z.of_int d)
         | None => NaN
         end
  end.

(** *** Dates *)

Inductive Date : Type :=
| Time (ms : Z)
| InvalidDate.

(** [a <= b] on dates compares the time values; it is false when either
    side is invalid. *)
Definition Date_le (a b : Date) : Prop :=
  match a, b with
  | Time x, Time y => (x <= y)%Z
  | _, _ => False
  end.

Definition msPerDay : Z := 86400000.

(** Days since the epoch to a civil date (proleptic Gregorian calendar). *)
Definition civil_from_days (days : Z) : Z * Z * Z :=
  let z := (days + 719468)%Z in
  let era := (z / 146097)%Z in
  let doe := (z - era * 146097)%Z in
  let yoe := ((doe - doe / 1460 + doe / 36524 - doe / 146096) / 365)%Z in
  let doy := (doe - (365 * yoe + yoe / 4 - yoe / 100))%Z in
  let mp := ((5 * doy + 2) / 153)%Z in
  let d := (doy - (153 * mp + 2) / 5 + 1)%Z in
  let m := (if (mp <? 10)%Z then mp + 3 else mp - 9)%Z in
  let y := (yoe + era * 400 + (if (m <=? 2)%Z then 1 else 0))%Z in
  (y, m, d).

(** A civil date to days since the epoch; a day past the end of its month
    runs over into the next one. *)
Definition days_from_civil (y m d : Z) : Z :=
  let y' := (y - (if (m <=? 2)%Z then 1 else 0))%Z in
  let era := (y' / 400)%Z in
  let yoe := (y' - era * 400)%Z in
  let mp := (if (2 <? m)%Z then m - 3 else m + 9)%Z in
  let doy := ((153 * mp + 2) / 5 + d - 1)%Z in
  let doe := (yoe * 365 + yoe / 4 - yoe / 100 + doy)%Z in
  (era * 146097 + doe - 719468)%Z.

Definition ascii_of_digit (d : Z) : ascii := ascii_of_nat (Z.to_nat (48 + d)).

Definition digit_of_ascii (c : ascii) : option Z :=
  let n := (Z.of_nat (nat_of_ascii c) - 48)%Z in
  if ((0 <=? n) && (n <=? 9))%Z then Some n else None.

Definition pad2 (n : Z) : list ascii :=
  [ascii_of_digit (n / 10 mod 10); ascii_of_digit (n mod 10)].

Definition pad3 (n : Z) : list ascii :=
  ascii_of_digit (n / 100 mod 10) :: pad2 n.

Definition pad4 (n : Z) : list ascii :=
  ascii_of_digit (n / 1000 mod 10) :: pad3 n.

Definition pad6 (n : Z) : list ascii :=
  ascii_of_digit (n / 100000 mod 10) :: ascii_of_digit (n / 10000 mod 10) :: pad4 n.

(** The year of an ISO string: four digits, or a sign and six digits
    outside of the years 0 to 9999. *)
Definition pad_year (y : Z) : list ascii :=
  if ((0 <=? y) && (y <=? 9999))%Z then pad4 y
  else (if (y <? 0)%Z then "-" else "+")%char :: pad6 (Z.abs y).

(** [new Date(t).toISOString()] for a valid time value [t]:
    [YYYY-MM-DDTHH:mm:ss.sssZ]. *)
Definition toISOString (t : Z) : string :=
  let '(y, m, d) := civil_from_days (t / msPerDay) in
  let r := (t mod msPerDay)%Z in
  string_of_list_ascii
    (pad_year y ++ "-"%char :: pad2 m ++ "-"%char :: pad2 d ++ "T"%char ::
     pad2 (r / 3600000) ++ ":"%char :: pad2 (r / 60000 mod 60) ++ ":"%char ::
     pad2 (r / 1000 mod 60) ++ "."%char :: pad3 (r mod 1000) ++ ["Z"%char]).

(** The decimal value of a run of digits. *)
Fixpoint decimal (acc : Z) (cs : list ascii) : option Z :=
  match cs with
  | [] => Some acc
  | c :: cs' =>
      match digit_of_ascii c with
      | Some d => decimal (10 * acc + d) cs'
      | None => None
      end
  end.

Definition in_range (lo hi x : Z) : bool := ((lo <=? x) && (x <=? hi))%Z.

(** The part [-MM-DD] of a date of the year [y], in days since the epoch. *)
Definition parse_month_day (y : Z) (s1 m1 m2 s2 d1 d2 : ascii) : option Z :=
  m ← decimal 0 [m1; m2];
  d ← decimal 0 [d1; d2];
  if Ascii.eqb s1 "-" && Ascii.eqb s2 "-" && in_range 1 12 m && in_range 1 31 d
  then Some (days_from_civil y m d) else None.

(** The date part [YYYY-MM-DD], in days since the epoch. *)
Definition parse_date (y1 y2 y3 y4 s1 m1 m2 s2 d1 d2 : ascii) : option Z :=
  y ← decimal 0 [y1; y2; y3; y4];
  parse_month_day y s1 m1 m2 s2 d1 d2.

(** The year of the expanded form, a sign and six digits; [-000000] is
    not a year. *)
Definition parse_year6 (sg y1 y2 y3 y4 y5 y6 : ascii) : option Z :=
  y ← decimal 0 [y1; y2; y3; y4; y5; y6];
  if Ascii.eqb sg "+" then Some y
  else if Ascii.eqb sg "-" && negb (y =? 0)%Z then Some (- y)%Z
  else None.

(** The date part of the expanded form, [+YYYYYY-MM-DD] or [-YYYYYY-MM-DD]. *)
Definition parse_date6 (sg y1 y2 y3 y4 y5 y6 s1 m1 m2 s2 d1 d2 : ascii)
  : option Z :=
  y ← parse_year6 sg y1 y2 y3 y4 y5 y6;
  parse_month_day y s1 m1 m2 s2 d1 d2.

(** The largest time value of a [Date], 100 000 000 days after the epoch,
    and the date of a time value: invalid beyond that range. *)
Definition maxTimeValue : Z := 8640000000000000.

Definition TimeClip (t : Z) : Date :=
  if in_range (- maxTimeValue) maxTimeValue t then Time t else InvalidDate.

(** The time part [HH:mm:ss.sss], in milliseconds since midnight. *)
Definition parse_time (h1 h2 s1 n1 n2 s2 c1 c2 s3 f1 f2 f3 : ascii) : option Z :=
  h ← decimal 0 [h1; h2];
  n ← decimal 0 [n1; n2];
  c ← decimal 0 [c1; c2];
  f ← decimal 0 [f1; f2; f3];
  if Ascii.eqb s1 ":" && Ascii.eqb s2 ":" && Ascii.eqb s3 "." &&
     in_range 0 23 h && in_range 0 59 n && in_range 0 59 c
  then Some (h * 3600000 + n * 60000 + c * 1000 + f)%Z else None.

(** [new Date(s)] for the forms the repository stores: the date-only
    form [YYYY-MM-DD] (midnight UTC) of the seed, and the full form
    [toISOString] produces, with a year of four digits or, outside of the
    years 0 to 9999, a sign and six digits. A string of another form is
    reported as an invalid date. *)
Definition Date_of_string (s : string) : Date :=
  match list_ascii_of_string s with
  | [y1; y2; y3; y4; s1; m1; m2; s2; d1; d2] =>
      match parse_date y1 y2 y3 y4 s1 m1 m2 s2 d1 d2 with
      | Some days => Time (days * msPerDay)
      | None => InvalidDate
      end
  | [sg; y1; y2; y3; y4; y5; y6; s1; m1; m2; s2; d1; d2] =>
      match parse_date6 sg y1 y2 y3 y4 y5 y6 s1 m1 m2 s2 d1 d2 with
      | Some days => TimeClip (days * msPerDay)
      | None => InvalidDate
      end
  | [y1; y2; y3; y4; s1; m1; m2; s2; d1; d2; t;
     h1; h2; s3; n1; n2; s4; c1; c2; s5; f1; f2; f3; z] =>
      match parse_date y1 y2 y3 y4 s1 m1 m2 s2 d1 d2,
            parse_time h1 h2 s3 n1 n2 s4 c1 c2 s5 f1 f2 f3 with
      | Some days, Some ms =>
          if Ascii.eqb t "T" && Ascii.eqb z "Z"
          then Time (days * msPerDay + ms) else InvalidDate
      | _, _ => InvalidDate
      end
  | [sg; y1; y2; y3; y4; y5; y6; s1; m1; m2; s2; d1; d2; t;
     h1; h2; s3; n1; n2; s4; c1; c2; s5; f1; f2; f3; z] =>
      match parse_date6 sg y1 y2 y3 y4 y5 y6 s1 m1 m2 s2 d1 d2,
            parse_time h1 h2 s3 n1 n2 s4 c1 c2 s5 f1 f2 f3 with
      | Some days, Some ms =>
          if Ascii.eqb t "T" && Ascii.eqb z "Z"
          then TimeClip (days * msPerDay + ms) else InvalidDate
      | _, _ => InvalidDate
      end
  | _ => InvalidDate
  end.

(** *** Arrays *)

(** [arr.findIndex(f)]; [None] stands for the result [-1]. *)
Fixpoint findIndex {A : Type} (f : A -> bool) (arr : list A) : option nat :=
  match arr with
  | [] => None
  | x :: arr' => if f x then Some 0%nat else S <$> findIndex f arr'
  end.

(** [arr.find(f)]; [None] stands for [undefined]. *)
Fixpoint find {A : Type} (f : A -> bool) (arr : list A) : option A :=
  match arr with
  | [] => None
  | x :: arr' => if f x then Some x else find f arr'
  end.

(** The array left by [arr.splice(index, 1)]. *)
Definition splice {A : Type} (index : nat) (arr : list A) : list A :=
  delete index arr.

(** *** Promises *)

Inductive Error : Type :=
| PostNotFound        (* new Error("Post not found") *)
| StorageUnavailable  (* a rejected Deno file operation, or a JSON.parse failure *)
| TypeError.          (* a property read on undefined *)

(** How a promise ends: [Pending] is a promise that is never settled. *)
Inductive Promise (A : Type) : Type :=
| Resolved (a : A)
| Rejected (e : Error)
| Pending.

Arguments Resolved {A} a.
Arguments Rejected {A} e.
Arguments Pending {A}.

(** ** The public model ([models.ts]) *)

Module PostModel.
Record t : Type := mk {
  id : number;
  title : string;
  description : string;
  body : string;
  createdBy : string;
  created : Date;
  updated : Date;
}.
End PostModel.

(** [Omit<PostModel, "created" | "id" | "updated">] *)
Module CreatePostModel.
Record t : Type := mk {
  title : string;
  description : string;
  body : string;
  createdBy : string;
}.
End CreatePostModel.

(** [Omit<PostModel, "created" | "updated" | "createdBy">] *)
Module UpdatePostModel.
Record t : Type := mk {
  id : number;
  title : string;
  description : string;
  body : string;
}.
End UpdatePostModel.

(** ** The in-memory backend ([in-memory.repo.ts]) *)

Module MemoryPost.
Record t : Type := mk {
  id : string;
  post_title : string;
  post_body : string;
  post_description : string;
  post_created : string;
  post_updated : string;
  username : string;
}.

(** Only there to give [posts !!! index] a type; every index read in
    this file comes from [findIndex] and is in range. *)
#[global] Instance inhabited : Inhabited t := populate (mk "" "" "" "" "" "" "").
End MemoryPost.

Module InMemoryRepository.

Record t : Type := mk { posts : list MemoryPost.t }.

(** The initial value of the private field [posts]. *)
Definition init : t :=
  mk [ MemoryPost.mk "1" "First Post" "This is the first post"
         "This is the first post" "2021-01-01" "2021-01-01" "johndoe";
       MemoryPost.mk "2" "Second Post" "This is the second post"
         "This is the second post" "2021-01-01" "2021-01-01" "janedoe" ].

Definition inMemoryPostToPostModel (post : MemoryPost.t) : PostModel.t :=
  {| PostModel.id := Number_ (MemoryPost.id post);
     PostModel.title := MemoryPost.post_title post;
     PostModel.description := MemoryPost.post_description post;
     PostModel.body := MemoryPost.post_body post;
     PostModel.created := Date_of_string (MemoryPost.post_created post);
     PostModel.updated := Date_of_string (MemoryPost.post_updated post);
     PostModel.createdBy := MemoryPost.username post |}.

Definition getAllPosts (this : t) : Promise (list PostModel.t) * t :=
  (Resolved (map inMemoryPostToPostModel (posts this)), this).

Definition getPostById (id : number) (this : t)
  : Promise (option PostModel.t) * t :=
  let post := find (fun post => String.eqb (MemoryPost.id post) (String_ id))
                (posts this) in
  (Resolved (match post with
             | Some post => Some (inMemoryPostToPostModel post)
             | None => None
             end), this).

(** [now1] and [now2] are the two evaluations of [new Date()]. *)
Definition createPost (now1 now2 : Z) (post : CreatePostModel.t) (this : t)
  : Promise PostModel.t * t :=
  let newPost :=
    {| MemoryPost.id := String_ (Num (Z.of_nat (length (posts this)) + 1));
       MemoryPost.post_title := CreatePostModel.title post;
       MemoryPost.post_body := CreatePostModel.body post;
       MemoryPost.post_description := CreatePostModel.description post;
       MemoryPost.post_created := toISOString now1;
       MemoryPost.post_updated := toISOString now2;
       MemoryPost.username := CreatePostModel.createdBy post |} in
  let this := mk (posts this ++ [newPost]) in
  (Resolved (inMemoryPostToPostModel newPost), this).

(** The parameter of the [findIndex] callback is named [post] as well and
    hides the argument of [updatePost]: the callback compares the id of
    each record with the text of that same id. The promise is settled in
    the [if] branch only. *)
Definition updatePost (now : Z) (post : UpdatePostModel.t) (this : t)
  : Promise PostModel.t * t :=
  let index :=
    findIndex (fun post : MemoryPost.t =>
                 String.eqb (MemoryPost.id post)
                   (String_of_string (MemoryPost.id post)))
      (posts this) in
  match index with
  | Some index =>
      let old := posts this !!! index in
      let this :=
        mk (<[index :=
               {| MemoryPost.id := MemoryPost.id old;
                  MemoryPost.post_created := MemoryPost.post_created old;
                  MemoryPost.username := MemoryPost.username old;
                  MemoryPost.post_title := UpdatePostModel.title post;
                  MemoryPost.post_body := UpdatePostModel.body post;
                  MemoryPost.post_description := UpdatePostModel.description post;
                  MemoryPost.post_updated := toISOString now |}]> (posts this)) in
      (Resolved (inMemoryPostToPostModel (posts this !!! index)), this)
  | None => (Pending, this)
  end.

(** The promise is settled in the [if] branch only. *)
Definition deletePost (id : number) (this : t) : Promise number * t :=
  let index :=
    findIndex (fun post => String.eqb (MemoryPost.id post) (String_ id))
      (posts this) in
  match index with
  | Some index =>
      let this := mk (splice index (posts this)) in
      (Resolved id, this)
  | None => (Pending, this)
  end.

End InMemoryRepository.

(** ** The file backend ([file.repo.ts]) *)

Module FilePost.
Record t : Type := mk {
  id : number;
  title : string;
  desc : string;
  body : string;
  author : string;
  added : Date;
  updated : Date;
}.

(** Only there to give [posts !!! index] a type, as for [MemoryPost.t]. *)
#[global] Instance inhabited : Inhabited t :=
  populate (mk NaN "" "" "" "" InvalidDate InvalidDate).
End FilePost.

Module FileRepository.

(** The text of [db.json], taken as the array of records it denotes:
    [JSON.stringify] and [JSON.parse] are the two directions of that
    reading. Two things are outside of it.
    - A file whose text parses to something else than an array of post
      records ([null], an object, ...). The code assigns such a value to
      [FilePosts], whose declared type is [FilePost[]], and the first
      array method called on it throws.
    - The run-time shape of timestamps. [JSON.stringify] writes a [Date]
      as its ISO string and [JSON.parse], called without a reviver, gives
      that string back, so a record loaded from the file carries strings
      where one made by [createPost] carries [Date]s. The model keeps the
      declared type [Date] and reads a timestamp of the file as the
      instant it denotes. *)
Definition Json : Type := list FilePost.t.
Definition JSON_parse (data : Json) : list FilePost.t := data.
Definition JSON_stringify (posts : list FilePost.t) : Json := posts.

(** The repository object together with the file system it works on.
    - [FilePosts] is the private field; [None] is [undefined].
    - [db_json] is what reading and parsing [db.json] gives; [None] when
      the file is missing or unreadable, or when its text is not JSON.
    - [writable] tells whether [db.json] can be written. *)
Record t : Type := mk {
  FilePosts : option (list FilePost.t);
  db_json : option Json;
  writable : bool;
}.

(** A freshly constructed repository over a given file system. *)
Definition init (db : option Json) (w : bool) : t := mk None db w.

(** An [async] function body: state passing, with a rejection ending
    the function at the [await] (or [throw]) that produced it. *)
Definition M (A : Type) : Type := t -> Promise A * t.

#[global] Instance M_ret : MRet M := fun A a this => (Resolved a, this).

#[global] Instance M_bind : MBind M := fun A B f m this =>
  match m this with
  | (Resolved a, this') => f a this'
  | (Rejected e, this') => (Rejected e, this')
  | (Pending, this') => (Pending, this')
  end.

Definition throw {A : Type} (e : Error) : M A := fun this => (Rejected e, this).

Definition Deno_readTextFile : M Json := fun this =>
  match db_json this with
  | Some data => (Resolved data, this)
  | None => (Rejected StorageUnavailable, this)
  end.

Definition Deno_writeTextFile (data : Json) : M unit := fun this =>
  if writable this
  then (Resolved tt, mk (FilePosts this) (Some data) (writable this))
  else (Rejected StorageUnavailable, this).

(** A read of [this.FilePosts] that is then dereferenced. *)
Definition get_FilePosts : M (list FilePost.t) := fun this =>
  match FilePosts this with
  | Some posts => (Resolved posts, this)
  | None => (Rejected TypeError, this)
  end.

Definition set_FilePosts (posts : list FilePost.t) : M unit := fun this =>
  (Resolved tt, mk (Some posts) (db_json this) (writable this)).

Definition loadPosts : M unit := fun this =>
  match FilePosts this with
  | None =>
      (data ← Deno_readTextFile; set_FilePosts (JSON_parse data) : M unit) this
  | Some _ => (mret tt : M unit) this
  end.

Definition filePostToPostModel (filePost : FilePost.t) : PostModel.t :=
  {| PostModel.id := FilePost.id filePost;
     PostModel.title := FilePost.title filePost;
     PostModel.description := FilePost.desc filePost;
     PostModel.body := FilePost.body filePost;
     PostModel.createdBy := FilePost.author filePost;
     PostModel.created := FilePost.added filePost;
     PostModel.updated := FilePost.updated filePost |}.

Definition getAllPosts : M (list PostModel.t) :=
  loadPosts;;
  posts ← get_FilePosts;
  mret (map filePostToPostModel posts).

Definition getPostById (id : number) : M (option PostModel.t) :=
  loadPosts;;
  posts ← get_FilePosts;
  let post := find (fun filePost => number_eqb (FilePost.id filePost) id) posts in
  mret (match post with
        | Some post => Some (filePostToPostModel post)
        | None => None
        end).

(** [now1] and [now2] are the two evaluations of [new Date()]. *)
Definition createPost (now1 now2 : Z) (post : CreatePostModel.t)
  : M PostModel.t :=
  loadPosts;;
  posts ← get_FilePosts;
  let newPost :=
    {| FilePost.id := Num (Z.of_nat (length posts) + 1);
       FilePost.title := CreatePostModel.title post;
       FilePost.desc := CreatePostModel.description post;
       FilePost.body := CreatePostModel.body post;
       FilePost.author := CreatePostModel.createdBy post;
       FilePost.added := Time now1;
       FilePost.updated := Time now2 |} in
  set_FilePosts (posts ++ [newPost]);;
  posts ← get_FilePosts;
  Deno_writeTextFile (JSON_stringify posts);;
  mret (filePostToPostModel newPost).

Definition updatePost (now : Z) (post : UpdatePostModel.t) : M PostModel.t :=
  loadPosts;;
  posts ← get_FilePosts;
  let index :=
    findIndex (fun filePost =>
                 number_eqb (FilePost.id filePost) (UpdatePostModel.id post))
      posts in
  match index with
  | Some index =>
      let old := posts !!! index in
      let updatedPost :=
        {| FilePost.id := FilePost.id old;
           FilePost.author := FilePost.author old;
           FilePost.added := FilePost.added old;
           FilePost.title := UpdatePostModel.title post;
           FilePost.desc := UpdatePostModel.description post;
           FilePost.body := UpdatePostModel.body post;
           FilePost.updated := Time now |} in
      set_FilePosts (<[index := updatedPost]> posts);;
      posts ← get_FilePosts;
      Deno_writeTextFile (JSON_stringify posts);;
      mret (filePostToPostModel updatedPost)
  | None => throw PostNotFound
  end.

Definition deletePost (id : number) : M number :=
  loadPosts;;
  posts ← get_FilePosts;
  let index :=
    findIndex (fun filePost => number_eqb (FilePost.id filePost) id) posts in
  match index with
  | Some index =>
      let deletedPost := posts !!! index in
      set_FilePosts (splice index posts);;
      posts ← get_FilePosts;
      Deno_writeTextFile (JSON_stringify posts);;
      mret (FilePost.id deletedPost)
  | None => throw PostNotFound
  end.

End FileRepository.

(** ** The contract ([store.interface.ts]) and its two implementations *)

Module IStoreRepository.

Inductive backend : Type :=
| InMemory   (* new InMemoryRepository() *)
| File.      (* new FileRepository() *)

Definition state (B : backend) : Type :=
  match B with
  | InMemory => InMemoryRepository.t
  | File => FileRepository.t
  end.

Definition getAllPosts (B : backend)
  : state B -> Promise (list PostModel.t) * state B :=
  match B with
  | InMemory => InMemoryRepository.getAllPosts
  | File => FileRepository.getAllPosts
  end.

Definition getPostById (B : backend) (id : number)
  : state B -> Promise (option PostModel.t) * state B :=
  match B with
  | InMemory => InMemoryRepository.getPostById id
  | File => FileRepository.getPostById id
  end.

Definition createPost (B : backend) (now1 now2 : Z) (post : CreatePostModel.t)
  : state B -> Promise PostModel.t * state B :=
  match B with
  | InMemory => InMemoryRepository.createPost now1 now2 post
  | File => FileRepository.createPost now1 now2 post
  end.

Definition updatePost (B : backend) (now : Z) (post : UpdatePostModel.t)
  : state B -> Promise PostModel.t * state B :=
  match B with
  | InMemory => InMemoryRepository.updatePost now post
  | File => FileRepository.updatePost now post
  end.

Definition deletePost (B : backend) (id : number)
  : state B -> Promise number * state B :=
  match B with
  | InMemory => InMemoryRepository.deletePost id
  | File => FileRepository.deletePost id
  end.

(** *** What a backend stores *)

(** The internal record of a backend. *)
Definition record (B : backend) : Type :=
  match B with
  | InMemory => MemoryPost.t
  | File => FilePost.t
  end.

(** The collection a backend serves its next operation from: the array
    in memory; for the file backend the loaded array, and before the
    first load what [db.json] holds ([None] when it cannot be read). *)
Definition records (B : backend) : state B -> option (list (record B)) :=
  match B with
  | InMemory => fun this => Some (InMemoryRepository.posts this)
  | File => fun this =>
      match FileRepository.FilePosts this with
      | Some posts => Some posts
      | None => FileRepository.db_json this
      end
  end.

(** The comparison each backend uses to look a record up by id. *)
Definition matches (B : backend) (id : number) : record B -> bool :=
  match B with
  | InMemory => fun post => String.eqb (MemoryPost.id post) (String_ id)
  | File => fun filePost => number_eqb (FilePost.id filePost) id
  end.

(** The translation of an internal record to the public model. *)
Definition toPostModel (B : backend) : record B -> PostModel.t :=
  match B with
  | InMemory => InMemoryRepository.inMemoryPostToPostModel
  | File => FileRepository.filePostToPostModel
  end.

(** The file backend can complete a mutation only if [db.json] can be
    written; the in-memory backend has no such condition. *)
Definition writable (B : backend) : state B -> Prop :=
  match B with
  | InMemory => fun _ => True
  | File => fun this => FileRepository.writable this = true
  end.

(** *** Runs of a repository *)

(** One call of the contract, with the clock readings it consumes. *)
Inductive call : Type :=
| GetAllPosts
| GetPostById (id : number)
| CreatePost (now1 now2 : Z) (post : CreatePostModel.t)
| UpdatePost (now : Z) (post : UpdatePostModel.t)
| DeletePost (id : number).

(** The state a call leaves behind. *)
Definition run (B : backend) (c : call) (this : state B) : state B :=
  match c with
  | GetAllPosts => snd (getAllPosts B this)
  | GetPostById id => snd (getPostById B id this)
  | CreatePost now1 now2 post => snd (createPost B now1 now2 post this)
  | UpdatePost now post => snd (updatePost B now post this)
  | DeletePost id => snd (deletePost B id this)
  end.

(** The instant of the seed posts of the in-memory backend,
    2021-01-01T00:00:00.000Z, and the largest time value a [Date] holds:
    every reading of the clock lies between [- max_time] and [max_time]. *)
Definition seed_time : Z := 1609459200000.
Definition max_time : Z := 8640000000000000.

(** The system clock does not run backwards: the readings of a call are
    in order and not before the last reading [t] seen so far. *)
Definition clock_ok (t : Z) (c : call) : Prop :=
  match c with
  | CreatePost now1 now2 _ => (t <= now1 /\ now1 <= now2 /\ now2 <= max_time)%Z
  | UpdatePost now _ => (t <= now /\ now <= max_time)%Z
  | _ => True
  end.

Definition clock_after (t : Z) (c : call) : Z :=
  match c with
  | CreatePost _ now2 _ => now2
  | UpdatePost now _ => now
  | _ => t
  end.

(** A record of [db.json] that a file repository may start from at time
    [t]: a numeric id and two valid timestamps in order, not in the
    future. *)
Definition wf_FilePost (t : Z) (filePost : FilePost.t) : Prop :=
  (exists k, FilePost.id filePost = Num k) /\
  exists a u, FilePost.added filePost = Time a /\
              FilePost.updated filePost = Time u /\ (a <= u /\ u <= t)%Z.

(** The states a backend starts in, at clock reading [t]. *)
Definition initial (B : backend) (t : Z) : state B -> Prop :=
  match B with
  | InMemory => fun this =>
      this = InMemoryRepository.init /\ (seed_time <= t /\ t <= max_time)%Z
  | File => fun this =>
      exists db w, this = FileRepository.init db w /\
        (- max_time <= t /\ t <= max_time)%Z /\
        forall posts, db = Some posts -> Forall (wf_FilePost t) posts
  end.

(** [reachable B t this]: [this] is a state of backend [B] after some
    sequence of calls, the last clock reading being [t]. *)
Inductive reachable (B : backend) : Z -> state B -> Prop :=
| reachable_initial t this :
    initial B t this -> reachable B t this
| reachable_run t this c :
    reachable B t this -> clock_ok t c ->
    reachable B (clock_after t c) (run B c this).

(** A record of the in-memory backend at time [t]: the text of an
    integer as id, and two timestamps that parse, in order, not in the
    future. *)
Definition wf_MemoryPost (t : Z) (post : MemoryPost.t) : Prop :=
  (exists k, MemoryPost.id post = String_ (Num k)) /\
  exists a u, Date_of_string (MemoryPost.post_created post) = Time a /\
              Date_of_string (MemoryPost.post_updated post) = Time u /\
              (a <= u /\ u <= t)%Z.

Definition wf_record (B : backend) (t : Z) : record B -> Prop :=
  match B with
  | InMemory => wf_MemoryPost t
  | File => wf_FilePost t
  end.

(** The invariant of the runs: the clock reading is a time value of a
    [Date] and every record, in memory or on disk, is well formed. *)
Definition invariant (B : backend) (t : Z) : state B -> Prop :=
  match B with
  | InMemory => fun this =>
      (- max_time <= t /\ t <= max_time)%Z /\
      Forall (wf_MemoryPost t) (InMemoryRepository.posts this)
  | File => fun this =>
      (- max_time <= t /\ t <= max_time)%Z /\
      (forall posts, FileRepository.FilePosts this = Some posts ->
                     Forall (wf_FilePost t) posts) /\
      (forall posts, FileRepository.db_json this = Some posts ->
                     Forall (wf_FilePost t) posts)
  end.

(** The id a record carries inside its backend: text in memory, a
    number in the file. *)
Definition has_internal_id (B : backend) (n : Z) : record B -> Prop :=
  match B with
  | InMemory => fun post => MemoryPost.id post = String_ (Num n)
  | File => fun filePost => FilePost.id filePost = Num n
  end.

(** What the backing file holds, for the backend that has one. *)
Definition persisted (B : backend) : state B -> option (list (record B)) :=
  match B with
  | InMemory => fun _ => None
  | File => FileRepository.db_json
  end.

(** What a call may do to the stored collection [rs], leaving [rs']. *)
Definition id_stable (B : backend) (c : call) (rs rs' : list (record B)) : Prop :=
  match c with
  | GetAllPosts | GetPostById _ => rs' = rs
  | CreatePost _ _ _ => exists r, rs' = rs ++ [r]
  | UpdatePost _ _ =>
      length rs' = length rs /\
      forall i r r', rs !! i = Some r -> rs' !! i = Some r' ->
        PostModel.id (toPostModel B r') = PostModel.id (toPostModel B r) /\
        PostModel.createdBy (toPostModel B r') = PostModel.createdBy (toPostModel B r) /\
        PostModel.created (toPostModel B r') = PostModel.created (toPostModel B r)
  | DeletePost _ => rs' = rs \/ exists i, rs' = delete i rs
  end.

End IStoreRepository.

Import IStoreRepository.

(** ** Auxiliary definitions for the calendar proofs *)

(** Everything [civil_from_days] and [days_from_civil] need of one day
    [doe] of a 400-year era, as a test that can be run on all of them. *)
Definition doe_ok (doe : Z) : bool :=
  let yoe := ((doe - doe / 1460 + doe / 36524 - doe / 146096) / 365)%Z in
  let doy := (doe - (365 * yoe + yoe / 4 - yoe / 100))%Z in
  let mp := ((5 * doy + 2) / 153)%Z in
  let d := (doy - (153 * mp + 2) / 5 + 1)%Z in
  let m := (if (mp <? 10)%Z then mp + 3 else mp - 9)%Z in
  let mp' := (if (2 <? m)%Z then m - 3 else m + 9)%Z in
  let doy' := ((153 * mp' + 2) / 5 + d - 1)%Z in
  in_range 0 399 yoe && in_range 1 12 m && in_range 1 31 d &&
  (yoe * 365 + yoe / 4 - yoe / 100 + doy' =? doe)%Z &&
  ((146036 <? doe)%Z || (yoe + (if (m <=? 2)%Z then 1 else 0) <=? 399)%Z).

(** [f] holds of the [n] integers from [z] on. *)
Fixpoint all_from (f : Z -> bool) (n : nat) (z : Z) : bool :=
  match n with
  | O => true
  | S n' => f z && all_from f n' (z + 1)
  end.

(** The file repository once [posts] is loaded, and the outcome of
    writing the loaded array [posts] back before resolving to [a]. *)
Definition loaded (this : FileRepository.t) (posts : list FilePost.t)
  : FileRepository.t :=
  FileRepository.mk (Some posts) (FileRepository.db_json this)
    (FileRepository.writable this).

Definition commit {A : Type} (this : FileRepository.t) (posts : list FilePost.t)
  (a : A) : Promise A * FileRepository.t :=
  if FileRepository.writable this
  then (Resolved a, FileRepository.mk (Some posts) (Some posts) true)
  else (Rejected StorageUnavailable, loaded this posts).

(** The records the mutations build. *)

(** The record the in-memory [createPost] appends to [posts]. *)
Definition MemoryPost_created (now1 now2 : Z) (post : CreatePostModel.t)
  (posts : list MemoryPost.t) : MemoryPost.t :=
  {| MemoryPost.id := String_ (Num (Z.of_nat (length posts) + 1));
     MemoryPost.post_title := CreatePostModel.title post;
     MemoryPost.post_body := CreatePostModel.body post;
     MemoryPost.post_description := CreatePostModel.description post;
     MemoryPost.post_created := toISOString now1;
     MemoryPost.post_updated := toISOString now2;
     MemoryPost.username := CreatePostModel.createdBy post |}.

(** The record [updatePost] writes over [old]. *)
Definition MemoryPost_updated (now : Z) (post : UpdatePostModel.t) (old : MemoryPost.t)
  : MemoryPost.t :=
  {| MemoryPost.id := MemoryPost.id old;
     MemoryPost.post_created := MemoryPost.post_created old;
     MemoryPost.username := MemoryPost.username old;
     MemoryPost.post_title := UpdatePostModel.title post;
     MemoryPost.post_body := UpdatePostModel.body post;
     MemoryPost.post_description := UpdatePostModel.description post;
     MemoryPost.post_updated := toISOString now |}.

(** The record [createPost] appends to [posts]. *)
Definition FilePost_created (now1 now2 : Z) (post : CreatePostModel.t)
  (posts : list FilePost.t) : FilePost.t :=
  {| FilePost.id := Num (Z.of_nat (length posts) + 1);
     FilePost.title := CreatePostModel.title post;
     FilePost.desc := CreatePostModel.description post;
     FilePost.body := CreatePostModel.body post;
     FilePost.author := CreatePostModel.createdBy post;
     FilePost.added := Time now1;
     FilePost.updated := Time now2 |}.

(** The record [updatePost] writes over [old]. *)
Definition FilePost_updated (now : Z) (post : UpdatePostModel.t) (old : FilePost.t)
  : FilePost.t :=
  {| FilePost.id := FilePost.id old;
     FilePost.author := FilePost.author old;
     FilePost.added := FilePost.added old;
     FilePost.title := UpdatePostModel.title post;
     FilePost.desc := UpdatePostModel.description post;
     FilePost.body := UpdatePostModel.body post;
     FilePost.updated := Time now |}.

(** Sample inputs: the two seed records, a payload and an update. *)
Definition seed_first : MemoryPost.t :=
  MemoryPost.mk "1" "First Post" "This is the first post"
    "This is the first post" "2021-01-01" "2021-01-01" "johndoe".

Definition seed_second : MemoryPost.t :=
  MemoryPost.mk "2" "Second Post" "This is the second post"
    "This is the second post" "2021-01-01" "2021-01-01" "janedoe".

Definition alice : CreatePostModel.t := CreatePostModel.mk "T" "D" "B" "alice".

Definition retitle (id : Z) : UpdatePostModel.t :=
  UpdatePostModel.mk (Num id) "T" "D" "B".

(** ** Sessions: runs of a backend that has nothing to load *)

(** A backend as the main script constructs it, with no record to load:
    the in-memory repository on its seed, and a file repository whose
    [db.json] holds the empty array or cannot be read. Every record such a
    file repository comes to hold is made by its own [createPost]. *)
Definition fresh (B : backend) : state B -> Prop :=
  match B with
  | InMemory => fun this => this = InMemoryRepository.init
  | File => fun this =>
      exists w, this = FileRepository.init (Some []) w \/
                this = FileRepository.init None w
  end.

(** The clock readings a session may start at: a time value of a [Date],
    and for the in-memory backend not before the instant of its seed. *)
Definition start_time (B : backend) (t : Z) : Prop :=
  match B with
  | InMemory => (seed_time <= t /\ t <= max_time)%Z
  | File => (- max_time <= t /\ t <= max_time)%Z
  end.

(** [session B t this]: [this] is reached from a fresh backend by calls
    whose clock readings never go backwards, the last reading being [t]. *)
Inductive session (B : backend) : Z -> state B -> Prop :=
| session_start t this :
    fresh B this -> start_time B t -> session B t this
| session_run t this c :
    session B t this -> clock_ok t c ->
    session B (clock_after t c) (run B c this).

(** The clock readings of a call are time values of a [Date], in any
    order. *)
Definition clock_valid (c : call) : Prop :=
  match c with
  | CreatePost now1 now2 _ =>
      (- max_time <= now1 <= max_time)%Z /\ (- max_time <= now2 <= max_time)%Z
  | UpdatePost now _ => (- max_time <= now <= max_time)%Z
  | _ => True
  end.

(** [free_session B this]: [this] is reached from a fresh backend by any
    calls, whatever the clock does between its readings. *)
Inductive free_session (B : backend) : state B -> Prop :=
| free_session_start this :
    fresh B this -> free_session B this
| free_session_run this c :
    free_session B this -> clock_valid c -> free_session B (run B c this).

(** A post with an integer id and two valid dates. *)
Definition proper_post (X : PostModel.t) : Prop :=
  exists k a u, PostModel.id X = Num k /\ PostModel.created X = Time a /\
                PostModel.updated X = Time u.

(** Every record of a backend, loaded or on disk, translates to a proper
    post. *)
Definition proper (B : backend) : state B -> Prop :=
  match B with
  | InMemory => fun this =>
      Forall (fun r => proper_post (toPostModel InMemory r))
        (InMemoryRepository.posts this)
  | File => fun this =>
      (forall posts, FileRepository.FilePosts this = Some posts ->
                     Forall (fun r => proper_post (toPostModel File r)) posts) /\
      (forall posts, FileRepository.db_json this = Some posts ->
                     Forall (fun r => proper_post (toPostModel File r)) posts)
  end.

(** ** The service and the mock of the main script *)

(** [mockRepo]: the methods whose results the model can hold. [createPost]
    and [updatePost] of the mock resolve to an object without any field,
    which is no value of [PostModel.t]; they are left out. *)
Module mockRepo.

Definition getAllPosts (this : unit) : Promise (list PostModel.t) * unit :=
  (Resolved [], this).

Definition getPostById (id : number) (this : unit)
  : Promise (option PostModel.t) * unit :=
  (Resolved None, this).

Definition deletePost (id : number) (this : unit) : Promise number * unit :=
  (Resolved (Num 1), this).

End mockRepo.

(** [MyAwesomeSerive], over the two methods of the contract it calls. The
    result carries what [console.log] has printed. *)
Module MyAwesomeSerive.

Section Service.

Context {St : Type}.
Variable getAllPosts : St -> Promise (list PostModel.t) * St.
Variable getPostById : number -> St -> Promise (option PostModel.t) * St.

Definition DoSomething (repo : St)
  : Promise unit * list (option PostModel.t) * St :=
  match getAllPosts repo with
  | (Resolved posts, repo) =>
      match posts with
      | post0 :: _ =>
          match getPostById (PostModel.id post0) repo with
          | (Resolved post, repo) => (Resolved tt, [post], repo)
          | (Rejected e, repo) => (Rejected e, [], repo)
          | (Pending, repo) => (Pending, [], repo)
          end
      | [] => (Resolved tt, [], repo)
      end
  | (Rejected e, repo) => (Rejected e, [], repo)
  | (Pending, repo) => (Pending, [], repo)
  end.

End Service.

End MyAwesomeSerive.

(** ** Notions for the further properties *)

(** How a promise ends, without its value. *)
Inductive settlement : Type :=
| Fulfilled
| Failed (e : Error)
| Unsettled.

Definition status {A : Type} (p : Promise A) : settlement :=
  match p with
  | Resolved _ => Fulfilled
  | Rejected e => Failed e
  | Pending => Unsettled
  end.

(** How a call ends. *)
Definition outcome (B : backend) (c : call) (this : state B) : settlement :=
  match c with
  | GetAllPosts => status (fst (getAllPosts B this))
  | GetPostById id => status (fst (getPostById B id this))
  | CreatePost now1 now2 post => status (fst (createPost B now1 now2 post this))
  | UpdatePost now post => status (fst (updatePost B now post this))
  | DeletePost id => status (fst (deletePost B id this))
  end.

Definition is_mutation (c : call) : bool :=
  match c with
  | GetAllPosts | GetPostById _ => false
  | CreatePost _ _ _ | UpdatePost _ _ | DeletePost _ => true
  end.

Definition is_delete (c : call) : bool :=
  match c with
  | DeletePost _ => true
  | _ => false
  end.

(** The id a call looks a record up by. *)
Definition target (c : call) : option number :=
  match c with
  | GetPostById id | DeletePost id => Some id
  | UpdatePost _ post => Some (UpdatePostModel.id post)
  | GetAllPosts | CreatePost _ _ _ => None
  end.

(** The state after a sequence of calls. *)
Fixpoint run_all (B : backend) (cs : list call) (this : state B) : state B :=
  match cs with
  | [] => this
  | c :: cs' => run_all B cs' (run B c this)
  end.

(** The stored ids are 1, 2, ... in the order of the collection. *)
Definition dense (B : backend) (rs : list (record B)) : Prop :=
  forall i r, rs !! i = Some r -> has_internal_id B (Z.of_nat i + 1) r.

(** The in-memory calls that leave their promise unsettled. *)
Definition hangs (c : call) (posts : list MemoryPost.t) : Prop :=
  match c with
  | UpdatePost _ _ => posts = []
  | DeletePost id => forall post, post ∈ posts -> matches InMemory id post = false
  | _ => False
  end.

(** Another process replaces [db.json] (or removes it, or changes its
    permissions) behind the back of a repository. *)
Definition external_edit (db : option FileRepository.Json) (w : bool)
  (this : FileRepository.t) : FileRepository.t :=
  FileRepository.mk (FileRepository.FilePosts this) db w.

(** * Properties *)

(** The conversions of the runtime are reasoned about through their
    lemmas, not by unfolding. *)
Arguments toISOString : simpl never.
Arguments Date_of_string : simpl never.
Arguments String_ : simpl never.
Arguments Number_ : simpl never.

(** ** The runtime *)

Section Numbers.

Lemma to_int_proper (z : Z) :
  Z.to_int z <> Decimal.Pos Decimal.Nil /\ Z.to_int z <> Decimal.Neg Decimal.Nil.
Proof.
  destruct z as [|p|p]; simpl; split; try discriminate;
    intros [= H]; exact (DecimalPos.Unsigned.to_uint_nonnil p H).
Qed.

(** The text of an integer reads back as that integer. *)
Lemma Number_String (z : Z) : Number_ (String_ (Num z)) = Num z.
Proof.
  destruct (to_int_proper z) as [Hp Hn].
  pose proof (NilZero.isi (Z.to_int z) Hp Hn) as E.
  unfold Number_, String_.
  destruct (NilZero.string_of_int (Z.to_int z)) eqn:Hs.
  - simpl in E. discriminate.
  - rewrite E. now rewrite DecimalZ.of_to.
Qed.

Lemma String_Num_inj (a b : Z) : String_ (Num a) = String_ (Num b) -> a = b.
Proof.
  intros H. apply (f_equal Number_) in H.
  rewrite !Number_String in H. congruence.
Qed.

Lemma String_eqb_Num (a b : Z) :
  String.eqb (String_ (Num a)) (String_ (Num b)) = Z.eqb a b.
Proof.
  destruct (Z.eqb_spec a b) as [->|Hne].
  - apply String.eqb_refl.
  - apply String.eqb_neq. intros H. apply Hne, String_Num_inj, H.
Qed.

Lemma number_eqb_Num (a : Z) : number_eqb (Num a) (Num a) = true.
Proof. apply Z.eqb_refl. Qed.

End Numbers.

Section Arrays.

Context {A : Type} (f : A -> bool).

Lemma find_None (arr : list A) :
  find f arr = None <-> forall x, x ∈ arr -> f x = false.
Proof.
  induction arr as [|a arr IH]; simpl.
  - split; [intros _ x Hx; inversion Hx | reflexivity].
  - destruct (f a) eqn:Fa.
    + split; [discriminate|]. intros H.
      rewrite (H a) in Fa by apply list_elem_of_here. discriminate.
    + rewrite IH. split.
      * intros H x Hx. apply elem_of_cons in Hx as [->|Hx]; auto.
      * intros H x Hx. apply H. now apply list_elem_of_further.
Qed.

Lemma findIndex_None (arr : list A) :
  findIndex f arr = None <-> forall x, x ∈ arr -> f x = false.
Proof.
  rewrite <- find_None.
  induction arr as [|a arr IH]; simpl; [tauto|].
  destruct (f a); [split; discriminate|].
  rewrite <- IH. destruct (findIndex f arr); simpl; split; congruence.
Qed.

(** The index found is that of the first element passing the test. *)
Lemma findIndex_Some (arr : list A) (i : nat) :
  findIndex f arr = Some i <->
  exists x, arr !! i = Some x /\ f x = true /\
            forall j y, (j < i)%nat -> arr !! j = Some y -> f y = false.
Proof.
  revert i. induction arr as [|a arr IH]; intros i; simpl.
  - split; [discriminate|]. intros (x & Hx & _). discriminate.
  - destruct (f a) eqn:Fa.
    + split.
      * intros [= <-]. exists a. repeat split; auto. intros j y Hj. lia.
      * intros (x & Hx & Fx & Hmin). destruct i as [|i]; [reflexivity|].
        rewrite (Hmin 0%nat a) in Fa by (simpl; auto with lia). discriminate.
    + split.
      * destruct (findIndex f arr) as [k|]; simpl; [|discriminate].
        intros [= <-]. destruct (proj1 (IH k) eq_refl) as (x & Hx & Fx & Hmin).
        exists x. repeat split; auto.
        intros [|j] y Hj; simpl; [congruence|].
        apply Hmin. lia.
      * intros (x & Hx & Fx & Hmin). destruct i as [|i]; simpl in Hx.
        { injection Hx as ->. congruence. }
        assert (findIndex f arr = Some i) as ->; [|reflexivity].
        apply IH. exists x. repeat split; auto.
        intros j y Hj Hy. apply (Hmin (S j)); [lia|exact Hy].
Qed.

Lemma findIndex_is_Some (arr : list A) (x : A) :
  x ∈ arr -> f x = true -> exists i, findIndex f arr = Some i.
Proof.
  intros Hx Fx. destruct (findIndex f arr) as [i|] eqn:E; [eauto|].
  rewrite findIndex_None in E. rewrite (E x Hx) in Fx. discriminate.
Qed.

(** [find] gives the element at the index [findIndex] gives. *)
Lemma find_findIndex (arr : list A) :
  find f arr = findIndex f arr ≫= fun i => arr !! i.
Proof.
  induction arr as [|a arr IH]; simpl; [reflexivity|].
  destruct (f a); [reflexivity|]. rewrite IH.
  destruct (findIndex f arr); reflexivity.
Qed.

Lemma find_app (arr : list A) (x : A) :
  find f (arr ++ [x]) =
  match find f arr with
  | Some y => Some y
  | None => if f x then Some x else None
  end.
Proof.
  induction arr as [|a arr IH]; simpl; [reflexivity|].
  destruct (f a); [reflexivity|exact IH].
Qed.


End Arrays.

Section Calendar.

Lemma all_from_spec (f : Z -> bool) (n : nat) (z : Z) :
  all_from f n z = true ->
  forall k, (z <= k < z + Z.of_nat n)%Z -> f k = true.
Proof.
  revert z. induction n as [|n IH]; intros z H k Hk; [lia|].
  cbn [all_from] in H. apply andb_true_iff in H as [H0 H1].
  destruct (Z.eq_dec k z) as [->|Hne]; [exact H0|].
  apply (IH (z + 1)%Z H1). lia.
Qed.

Lemma doe_ok_all : all_from doe_ok (Z.to_nat 146097) 0 = true.
Proof. vm_cast_no_check (eq_refl true). Qed.

Lemma doe_ok_range (doe : Z) : (0 <= doe < 146097)%Z -> doe_ok doe = true.
Proof.
  intros H. apply (all_from_spec _ _ _ doe_ok_all). lia.
Qed.
Lemma digit_of_ascii_of_digit (d : Z) :
  (0 <= d <= 9)%Z -> digit_of_ascii (ascii_of_digit d) = Some d.
Proof.
  intros H.
  assert (d = 0 \/ d = 1 \/ d = 2 \/ d = 3 \/ d = 4 \/
          d = 5 \/ d = 6 \/ d = 7 \/ d = 8 \/ d = 9)%Z as D by lia.
  repeat (destruct D as [-> | D]; [reflexivity |]). now subst.
Qed.

Lemma digit_mod (n : Z) : (0 <= n mod 10 <= 9)%Z.
Proof. pose proof (Z.mod_pos_bound n 10). lia. Qed.

Lemma decimal_pad2 (n : Z) :
  (0 <= n < 100)%Z ->
  decimal 0 [ascii_of_digit (n / 10 mod 10); ascii_of_digit (n mod 10)] = Some n.
Proof.
  intros H. simpl.
  rewrite !digit_of_ascii_of_digit by apply digit_mod.
  f_equal. Z.div_mod_to_equations. lia.
Qed.

Lemma decimal_pad3 (n : Z) :
  (0 <= n < 1000)%Z ->
  decimal 0 [ascii_of_digit (n / 100 mod 10); ascii_of_digit (n / 10 mod 10);
             ascii_of_digit (n mod 10)] = Some n.
Proof.
  intros H. simpl.
  rewrite !digit_of_ascii_of_digit by apply digit_mod.
  f_equal. Z.div_mod_to_equations. lia.
Qed.

Lemma decimal_pad4 (n : Z) :
  (0 <= n < 10000)%Z ->
  decimal 0 [ascii_of_digit (n / 1000 mod 10); ascii_of_digit (n / 100 mod 10);
             ascii_of_digit (n / 10 mod 10); ascii_of_digit (n mod 10)] = Some n.
Proof.
  intros H. simpl.
  rewrite !digit_of_ascii_of_digit by apply digit_mod.
  f_equal. Z.div_mod_to_equations. lia.
Qed.


Lemma in_range_true (lo hi x : Z) : in_range lo hi x = true <-> (lo <= x <= hi)%Z.
Proof. unfold in_range. rewrite andb_true_iff, !Z.leb_le. tauto. Qed.

Lemma decimal_pad6 (n : Z) :
  (0 <= n < 1000000)%Z ->
  decimal 0 [ascii_of_digit (n / 100000 mod 10); ascii_of_digit (n / 10000 mod 10);
             ascii_of_digit (n / 1000 mod 10); ascii_of_digit (n / 100 mod 10);
             ascii_of_digit (n / 10 mod 10); ascii_of_digit (n mod 10)] = Some n.
Proof.
  intros H. simpl.
  rewrite !digit_of_ascii_of_digit by apply digit_mod.
  f_equal. Z.div_mod_to_equations. lia.
Qed.

Lemma civil_roundtrip (z y m d : Z) :
  civil_from_days z = (y, m, d) ->
  days_from_civil y m d = z /\ (1 <= m <= 12)%Z /\ (1 <= d <= 31)%Z /\
  ((-100000000 <= z <= 100000000)%Z -> (-999999 <= y <= 999999)%Z).
Proof.
  unfold civil_from_days.
  set (era := ((z + 719468) / 146097)%Z).
  set (doe := (z + 719468 - era * 146097)%Z).
  assert (0 <= doe < 146097)%Z as Hdoe
    by (subst doe era; Z.div_mod_to_equations; lia).
  pose proof (doe_ok_range doe Hdoe) as OK. unfold doe_ok in OK.
  set (yoe := ((doe - doe / 1460 + doe / 36524 - doe / 146096) / 365)%Z) in *.
  set (doy := (doe - (365 * yoe + yoe / 4 - yoe / 100))%Z) in *.
  set (mp := ((5 * doy + 2) / 153)%Z) in *.
  set (d0 := (doy - (153 * mp + 2) / 5 + 1)%Z) in *.
  set (m0 := (if (mp <? 10)%Z then mp + 3 else mp - 9)%Z) in *.
  set (c := (if (m0 <=? 2)%Z then 1 else 0)%Z) in *.
  intros [= <- <- <-].
  rewrite !andb_true_iff, !in_range_true, Z.eqb_eq in OK.
  destruct OK as ((((Hyoe & Hm) & Hd) & Hback) & _).
  split; [|split; [exact Hm|split; [exact Hd|]]].
  - unfold days_from_civil. fold c.
    replace (yoe + era * 400 + c - c)%Z with (yoe + era * 400)%Z by lia.
    rewrite Z.div_add, (Z.div_small yoe 400) by lia.
    replace (yoe + era * 400 - (0 + era) * 400)%Z with yoe by lia.
    rewrite Hback. subst doe. lia.
  - intros Hz.
    assert (-690 <= era <= 690)%Z as He
      by (subst era; Z.div_mod_to_equations; lia).
    assert (c = 0 \/ c = 1)%Z as Hc by (subst c; destruct (m0 <=? 2)%Z; lia).
    lia.
Qed.

Lemma parse_month_day_pad (y m d : Z) :
  (1 <= m <= 12)%Z -> (1 <= d <= 31)%Z ->
  parse_month_day y "-"
    (ascii_of_digit (m / 10 mod 10)) (ascii_of_digit (m mod 10)) "-"
    (ascii_of_digit (d / 10 mod 10)) (ascii_of_digit (d mod 10))
  = Some (days_from_civil y m d).
Proof.
  intros Hm Hd. unfold parse_month_day.
  rewrite !decimal_pad2 by lia. cbn [mbind option_bind].
  rewrite (proj2 (in_range_true 1 12 m) Hm), (proj2 (in_range_true 1 31 d) Hd).
  reflexivity.
Qed.

Lemma parse_date_pad (y m d : Z) :
  (0 <= y <= 9999)%Z -> (1 <= m <= 12)%Z -> (1 <= d <= 31)%Z ->
  parse_date (ascii_of_digit (y / 1000 mod 10)) (ascii_of_digit (y / 100 mod 10))
    (ascii_of_digit (y / 10 mod 10)) (ascii_of_digit (y mod 10)) "-"
    (ascii_of_digit (m / 10 mod 10)) (ascii_of_digit (m mod 10)) "-"
    (ascii_of_digit (d / 10 mod 10)) (ascii_of_digit (d mod 10))
  = Some (days_from_civil y m d).
Proof.
  intros Hy Hm Hd. unfold parse_date.
  rewrite decimal_pad4 by lia. cbn [mbind option_bind].
  now apply parse_month_day_pad.
Qed.

(** The expanded year reads back, sign included. *)
Lemma parse_year6_pad (y : Z) :
  in_range 0 9999 y = false -> (-999999 <= y <= 999999)%Z ->
  parse_year6 (if (y <? 0)%Z then "-"%char else "+"%char)
    (ascii_of_digit (Z.abs y / 100000 mod 10)) (ascii_of_digit (Z.abs y / 10000 mod 10))
    (ascii_of_digit (Z.abs y / 1000 mod 10)) (ascii_of_digit (Z.abs y / 100 mod 10))
    (ascii_of_digit (Z.abs y / 10 mod 10)) (ascii_of_digit (Z.abs y mod 10))
  = Some y.
Proof.
  intros Hout Hy. unfold parse_year6.
  rewrite decimal_pad6 by lia. cbn [mbind option_bind].
  destruct (Z.ltb_spec y 0) as [Hneg|Hpos].
  - assert ((Z.abs y =? 0)%Z = false) as -> by (apply Z.eqb_neq; lia).
    cbn. f_equal. lia.
  - cbn. f_equal. lia.
Qed.

Lemma parse_date6_pad (y m d : Z) :
  in_range 0 9999 y = false -> (-999999 <= y <= 999999)%Z ->
  (1 <= m <= 12)%Z -> (1 <= d <= 31)%Z ->
  parse_date6 (if (y <? 0)%Z then "-"%char else "+"%char)
    (ascii_of_digit (Z.abs y / 100000 mod 10)) (ascii_of_digit (Z.abs y / 10000 mod 10))
    (ascii_of_digit (Z.abs y / 1000 mod 10)) (ascii_of_digit (Z.abs y / 100 mod 10))
    (ascii_of_digit (Z.abs y / 10 mod 10)) (ascii_of_digit (Z.abs y mod 10)) "-"
    (ascii_of_digit (m / 10 mod 10)) (ascii_of_digit (m mod 10)) "-"
    (ascii_of_digit (d / 10 mod 10)) (ascii_of_digit (d mod 10))
  = Some (days_from_civil y m d).
Proof.
  intros Hout Hy Hm Hd. unfold parse_date6.
  rewrite parse_year6_pad by assumption. cbn [mbind option_bind].
  now apply parse_month_day_pad.
Qed.

Lemma parse_time_pad (r : Z) :
  (0 <= r < msPerDay)%Z ->
  parse_time
    (ascii_of_digit (r / 3600000 / 10 mod 10)) (ascii_of_digit (r / 3600000 mod 10)) ":"
    (ascii_of_digit (r / 60000 mod 60 / 10 mod 10)) (ascii_of_digit (r / 60000 mod 60 mod 10)) ":"
    (ascii_of_digit (r / 1000 mod 60 / 10 mod 10)) (ascii_of_digit (r / 1000 mod 60 mod 10)) "."
    (ascii_of_digit (r mod 1000 / 100 mod 10)) (ascii_of_digit (r mod 1000 / 10 mod 10))
    (ascii_of_digit (r mod 1000 mod 10))
  = Some r.
Proof.
  unfold msPerDay. intros Hr. unfold parse_time.
  assert (0 <= r / 3600000 <= 23)%Z by (Z.div_mod_to_equations; lia).
  assert (0 <= r / 60000 mod 60 <= 59)%Z by (Z.div_mod_to_equations; lia).
  assert (0 <= r / 1000 mod 60 <= 59)%Z by (Z.div_mod_to_equations; lia).
  assert (0 <= r mod 1000 <= 999)%Z by (Z.div_mod_to_equations; lia).
  rewrite !decimal_pad2, decimal_pad3 by lia. cbn [mbind option_bind].
  rewrite !(proj2 (in_range_true _ _ _)) by assumption.
  cbn [Ascii.eqb andb]. simpl Ascii.eqb. cbn [andb]. f_equal.
  Z.div_mod_to_equations. lia.
Qed.

Lemma TimeClip_valid (t : Z) :
  (- maxTimeValue <= t <= maxTimeValue)%Z -> TimeClip t = Time t.
Proof. intros H. unfold TimeClip. now rewrite (proj2 (in_range_true _ _ _) H). Qed.

(** [toISOString] followed by [new Date(_)] gives the time value back, for
    every time value a [Date] can hold. *)
Lemma Date_of_string_toISOString (t : Z) :
  (- maxTimeValue <= t <= maxTimeValue)%Z -> Date_of_string (toISOString t) = Time t.
Proof.
  intros Ht. unfold toISOString.
  destruct (civil_from_days (t / msPerDay)) as [[y m] d] eqn:E.
  destruct (civil_roundtrip _ _ _ _ E) as (Hback & Hm & Hd & Hy).
  assert (-100000000 <= t / msPerDay <= 100000000)%Z as Hz
    by (unfold msPerDay, maxTimeValue in *; Z.div_mod_to_equations; lia).
  specialize (Hy Hz).
  assert (0 <= t mod msPerDay < msPerDay)%Z as Hr
    by (apply Z.mod_pos_bound; reflexivity).
  assert (days_from_civil y m d * msPerDay + t mod msPerDay = t)%Z as Hsum.
  { rewrite Hback. pose proof (Z.div_mod t msPerDay). unfold msPerDay in *. lia. }
  unfold pad_year. change ((0 <=? y)%Z && (y <=? 9999)%Z) with (in_range 0 9999 y).
  destruct (in_range 0 9999 y) eqn:Hin.
  - apply in_range_true in Hin.
    unfold Date_of_string. rewrite list_ascii_of_string_of_list_ascii.
    unfold pad4, pad3, pad2. cbn [app].
    rewrite parse_date_pad, parse_time_pad by assumption.
    simpl Ascii.eqb. cbn [andb]. now rewrite Hsum.
  - unfold Date_of_string. rewrite list_ascii_of_string_of_list_ascii.
    unfold pad6, pad4, pad3, pad2. cbn [app].
    rewrite parse_date6_pad, parse_time_pad by assumption.
    simpl Ascii.eqb. cbn [andb]. rewrite Hsum. now apply TimeClip_valid.
Qed.

(** The same, for a reading of the clock. *)
Lemma Date_of_clock_reading (t : Z) :
  (- max_time <= t <= max_time)%Z -> Date_of_string (toISOString t) = Time t.
Proof. apply Date_of_string_toISOString. Qed.

End Calendar.

(** ** The in-memory backend *)

Module InMemoryFacts.
Import InMemoryRepository.

(** The test of [updatePost] holds of every record. *)
Lemma updatePost_test (post : MemoryPost.t) :
  String.eqb (MemoryPost.id post) (String_of_string (MemoryPost.id post)) = true.
Proof. apply String.eqb_refl. Qed.

Lemma updatePost_cons (now : Z) (post : UpdatePostModel.t)
  (first : MemoryPost.t) (rest : list MemoryPost.t) :
  updatePost now post (mk (first :: rest)) =
  (Resolved (inMemoryPostToPostModel (MemoryPost_updated now post first)),
   mk (MemoryPost_updated now post first :: rest)).
Proof.
  unfold updatePost. cbn [posts findIndex]. rewrite updatePost_test.
  reflexivity.
Qed.

Lemma updatePost_nil (now : Z) (post : UpdatePostModel.t) :
  updatePost now post (mk []) = (Pending, mk []).
Proof. reflexivity. Qed.

Lemma deletePost_absent (id : number) (this : t) :
  (forall post, post ∈ posts this -> matches InMemory id post = false) ->
  deletePost id this = (Pending, this).
Proof.
  intros H. unfold deletePost.
  pose proof (proj2 (findIndex_None _ (posts this)) H) as E.
  cbn in E. now rewrite E.
Qed.

End InMemoryFacts.

(** ** The file backend *)

Module FileFacts.
Import FileRepository.

Lemma loadPosts_available (this : t) (posts : list FilePost.t) :
  records File this = Some posts ->
  loadPosts this = (Resolved tt, loaded this posts).
Proof.
  destruct this as [[cache|] db w]; simpl; intros [= ->]; reflexivity.
Qed.

Lemma loadPosts_unavailable (this : t) :
  records File this = None ->
  loadPosts this = (Rejected StorageUnavailable, this).
Proof.
  destruct this as [[cache|] db w]; simpl; intros [= ->]; reflexivity.
Qed.

Ltac run_async H :=
  unfold getAllPosts, getPostById, createPost, updatePost, deletePost;
  unfold mbind, M_bind;
  first [ rewrite (loadPosts_available _ _ H)
        | rewrite (loadPosts_unavailable _ H) ];
  cbn.

Lemma getAllPosts_available (this : t) (posts : list FilePost.t) :
  records File this = Some posts ->
  getAllPosts this =
  (Resolved (map filePostToPostModel posts), loaded this posts).
Proof. intros H. run_async H. reflexivity. Qed.

Lemma getPostById_available (id : number) (this : t) (posts : list FilePost.t) :
  records File this = Some posts ->
  getPostById id this =
  (Resolved (filePostToPostModel <$>
             find (fun filePost => number_eqb (FilePost.id filePost) id) posts),
   loaded this posts).
Proof.
  intros H. run_async H.
  destruct (find _ posts); reflexivity.
Qed.

Lemma createPost_available (now1 now2 : Z) (post : CreatePostModel.t)
  (this : t) (posts : list FilePost.t) :
  records File this = Some posts ->
  createPost now1 now2 post this =
  commit this (posts ++ [FilePost_created now1 now2 post posts])
    (filePostToPostModel (FilePost_created now1 now2 post posts)).
Proof.
  intros H. run_async H. unfold commit, Deno_writeTextFile, loaded. cbn.
  destruct (writable this) eqn:W; reflexivity.
Qed.

Lemma updatePost_available (now : Z) (post : UpdatePostModel.t)
  (this : t) (posts : list FilePost.t) :
  records File this = Some posts ->
  updatePost now post this =
  match findIndex (fun filePost =>
                     number_eqb (FilePost.id filePost) (UpdatePostModel.id post))
          posts with
  | Some index =>
      commit this (<[index := FilePost_updated now post (posts !!! index)]> posts)
        (filePostToPostModel (FilePost_updated now post (posts !!! index)))
  | None => (Rejected PostNotFound, loaded this posts)
  end.
Proof.
  intros H. run_async H.
  destruct (findIndex _ posts) as [index|]; [|reflexivity].
  unfold commit, Deno_writeTextFile, loaded. cbn.
  destruct (writable this) eqn:W; reflexivity.
Qed.

Lemma deletePost_available (id : number) (this : t) (posts : list FilePost.t) :
  records File this = Some posts ->
  deletePost id this =
  match findIndex (fun filePost => number_eqb (FilePost.id filePost) id) posts with
  | Some index =>
      commit this (splice index posts) (FilePost.id (posts !!! index))
  | None => (Rejected PostNotFound, loaded this posts)
  end.
Proof.
  intros H. run_async H.
  destruct (findIndex _ posts) as [index|]; [|reflexivity].
  unfold commit, Deno_writeTextFile, loaded. cbn.
  destruct (writable this) eqn:W; reflexivity.
Qed.

(** With [db.json] unreadable and nothing loaded, every operation is
    rejected and changes nothing. *)
Lemma unavailable (this : t) :
  records File this = None ->
  getAllPosts this = (Rejected StorageUnavailable, this) /\
  (forall id, getPostById id this = (Rejected StorageUnavailable, this)) /\
  (forall now1 now2 post,
      createPost now1 now2 post this = (Rejected StorageUnavailable, this)) /\
  (forall now post, updatePost now post this = (Rejected StorageUnavailable, this)) /\
  (forall id, deletePost id this = (Rejected StorageUnavailable, this)).
Proof.
  intros H. repeat split; intros; run_async H; reflexivity.
Qed.

Lemma records_loaded (this : t) (posts : list FilePost.t) :
  records File (loaded this posts) = Some posts.
Proof. reflexivity. Qed.

Lemma records_commit {A : Type} (this : t) (posts : list FilePost.t) (a : A) :
  records File (snd (commit this posts a)) = Some posts.
Proof. unfold commit. destruct (writable this); reflexivity. Qed.

End FileFacts.

(** ** The invariant of the runs *)

Section Invariant.

Lemma wf_record_mono (B : backend) (t t' : Z) (r : record B) :
  (t <= t')%Z -> wf_record B t r -> wf_record B t' r.
Proof.
  intros Ht. destruct B; intros (Hid & a & u & Ha & Hu & Hau);
    (split; [exact Hid|]); exists a, u; repeat split; auto; lia.
Qed.

Lemma Forall_wf_mono (B : backend) (t t' : Z) (rs : list (record B)) :
  (t <= t')%Z -> Forall (wf_record B t) rs -> Forall (wf_record B t') rs.
Proof.
  intros Ht H. eapply Forall_impl; [exact H|].
  intros r. now apply wf_record_mono.
Qed.

Lemma wf_MemoryPost_created (now1 now2 : Z) (post : CreatePostModel.t)
  (posts : list MemoryPost.t) :
  (- max_time <= now1 /\ now1 <= now2 /\ now2 <= max_time)%Z ->
  wf_MemoryPost now2 (MemoryPost_created now1 now2 post posts).
Proof.
  intros H. split; [eexists; reflexivity|]. exists now1, now2. cbn.
  rewrite !Date_of_clock_reading by lia. repeat split; lia.
Qed.

Lemma wf_MemoryPost_updated (t now : Z) (post : UpdatePostModel.t) (old : MemoryPost.t) :
  (- max_time <= t /\ t <= now /\ now <= max_time)%Z ->
  wf_MemoryPost t old -> wf_MemoryPost now (MemoryPost_updated now post old).
Proof.
  intros H (Hid & a & u & Ha & Hu & Hau). split; [exact Hid|].
  exists a, now. cbn. rewrite Date_of_clock_reading by lia.
  repeat split; auto; lia.
Qed.

Lemma wf_FilePost_created (now1 now2 : Z) (post : CreatePostModel.t)
  (posts : list FilePost.t) :
  (now1 <= now2)%Z -> wf_FilePost now2 (FilePost_created now1 now2 post posts).
Proof.
  intros H. split; [eexists; reflexivity|]. exists now1, now2. cbn.
  repeat split; auto; lia.
Qed.

Lemma wf_FilePost_updated (t now : Z) (post : UpdatePostModel.t) (old : FilePost.t) :
  (t <= now)%Z -> wf_FilePost t old -> wf_FilePost now (FilePost_updated now post old).
Proof.
  intros H (Hid & a & u & Ha & Hu & Hau). split; [exact Hid|].
  exists a, now. cbn. repeat split; auto; lia.
Qed.

(** Under the invariant, what a backend serves is well formed. *)
Lemma invariant_records (B : backend) (t : Z) (this : state B) (rs : list (record B)) :
  invariant B t this -> records B this = Some rs -> Forall (wf_record B t) rs.
Proof.
  destruct B; simpl.
  - intros [_ H] [= <-]. exact H.
  - intros (_ & Hc & Hd). destruct (FileRepository.FilePosts this); intros E.
    + injection E as <-. now apply Hc.
    + now apply Hd.
Qed.

Lemma invariant_initial (B : backend) (t : Z) (this : state B) :
  initial B t this -> invariant B t this.
Proof.
  destruct B; simpl.
  - intros (-> & Hlo & Hhi). unfold seed_time in Hlo. split; [lia|].
    repeat constructor; try (exists 1%Z; reflexivity); try (exists 2%Z; reflexivity);
      exists seed_time, seed_time; unfold seed_time; repeat split; lia.
  - intros (db & w & -> & Ht & Hdb). split; [lia|]. split; [discriminate|exact Hdb].
Qed.

Lemma invariant_loaded (t : Z) (this : FileRepository.t) (posts : list FilePost.t) :
  invariant File t this -> Forall (wf_FilePost t) posts ->
  invariant File t (loaded this posts).
Proof.
  intros (Ht & Hc & Hd) Hp. split; [exact Ht|]. split; [|exact Hd].
  intros ? [= <-]. exact Hp.
Qed.

Lemma invariant_commit {A : Type} (t t' : Z) (this : FileRepository.t)
  (posts : list FilePost.t) (a : A) :
  (t <= t' /\ t' <= max_time)%Z ->
  invariant File t this -> Forall (wf_FilePost t') posts ->
  invariant File t' (snd (commit this posts a)).
Proof.
  intros Ht (Ht0 & Hc & Hd) Hp. unfold commit.
  destruct (FileRepository.writable this); cbn.
  - split; [lia|]. split; intros ? [= <-]; exact Hp.
  - split; [lia|]. split; [intros ? [= <-]; exact Hp|].
    intros posts' E. apply (Forall_wf_mono File t t'); [lia|]. now apply Hd.
Qed.

Lemma invariant_run_InMemory (t : Z) (this : InMemoryRepository.t) (c : call) :
  invariant InMemory t this -> clock_ok t c ->
  invariant InMemory (clock_after t c) (run InMemory c this).
Proof.
  intros [Ht Hwf] Hc. destruct this as [posts]. cbn in Hwf.
  destruct c as [|id|now1 now2 post|now post|id]; cbn in Hc |- *.
  - split; assumption.
  - split; assumption.
  - split; [lia|]. apply Forall_app. split.
    + apply (Forall_wf_mono InMemory t now2); [lia|exact Hwf].
    + apply Forall_singleton. apply wf_MemoryPost_created. lia.
  - destruct posts as [|first rest].
    + cbn. split; [lia|constructor].
    + rewrite InMemoryFacts.updatePost_cons. cbn. split; [lia|].
      inversion Hwf as [|? ? Hfirst Hrest]; subst. constructor.
      * apply (wf_MemoryPost_updated t); [lia|exact Hfirst].
      * apply (Forall_wf_mono InMemory t now); [lia|exact Hrest].
  - unfold InMemoryRepository.deletePost. cbn.
    destruct (findIndex _ posts) as [index|]; cbn; (split; [lia|]);
      [apply Forall_delete|]; exact Hwf.
Qed.

Lemma invariant_run_File (t : Z) (this : FileRepository.t) (c : call) :
  invariant File t this -> clock_ok t c ->
  invariant File (clock_after t c) (run File c this).
Proof.
  intros Hinv Hc. pose proof Hinv as (Ht & _).
  destruct (records File this) as [posts|] eqn:R.
  - pose proof (invariant_records File t this posts Hinv R) as Hwf.
    destruct c as [|id|now1 now2 post|now post|id]; cbn in Hc |- *.
    + rewrite (FileFacts.getAllPosts_available _ _ R). now apply invariant_loaded.
    + rewrite (FileFacts.getPostById_available _ _ _ R). now apply invariant_loaded.
    + rewrite (FileFacts.createPost_available _ _ _ _ _ R).
      apply (invariant_commit t); [lia|exact Hinv|].
      apply Forall_app. split.
      * apply (Forall_wf_mono File t now2); [lia|exact Hwf].
      * apply Forall_singleton. apply wf_FilePost_created. lia.
    + rewrite (FileFacts.updatePost_available _ _ _ _ R).
      match goal with
      | |- context [findIndex ?f ?l] => destruct (findIndex f l) as [index|] eqn:F
      end.
      * apply (invariant_commit t); [lia|exact Hinv|].
        apply findIndex_Some in F as (old & Hold & _).
        rewrite (list_lookup_total_correct _ _ _ Hold).
        apply Forall_insert.
        -- apply (Forall_wf_mono File t now); [lia|exact Hwf].
        -- apply (wf_FilePost_updated t); [lia|].
           exact (Forall_lookup_1 _ _ _ _ Hwf Hold).
      * cbn. apply (invariant_loaded now).
        -- destruct Hinv as (_ & H1 & H2). split; [lia|]. split; intros ? E.
           ++ apply (Forall_wf_mono File t now); [lia|]. now apply H1.
           ++ apply (Forall_wf_mono File t now); [lia|]. now apply H2.
        -- apply (Forall_wf_mono File t now); [lia|exact Hwf].
    + rewrite (FileFacts.deletePost_available _ _ _ R).
      match goal with
      | |- context [findIndex ?f ?l] => destruct (findIndex f l) as [index|]
      end.
      * apply (invariant_commit t); [lia|exact Hinv|].
        now apply Forall_delete.
      * now apply invariant_loaded.
  - destruct (FileFacts.unavailable this R) as (E1 & E2 & E3 & E4 & E5).
    destruct Hinv as (_ & H1 & H2).
    destruct c as [|id|now1 now2 post|now post|id]; cbn in Hc |- *;
      rewrite ?E1, ?E2, ?E3, ?E4, ?E5; cbn;
      (split; [lia|]); split; intros ? E;
      first [ now apply H1 | now apply H2
            | apply (Forall_wf_mono File t now2); [lia|]; first [now apply H1|now apply H2]
            | apply (Forall_wf_mono File t now); [lia|]; first [now apply H1|now apply H2] ].
Qed.

Lemma invariant_run (B : backend) (t : Z) (this : state B) (c : call) :
  invariant B t this -> clock_ok t c ->
  invariant B (clock_after t c) (run B c this).
Proof.
  destruct B; [apply invariant_run_InMemory|apply invariant_run_File].
Qed.

(** Every reachable state satisfies the invariant. *)
Lemma reachable_invariant (B : backend) (t : Z) (this : state B) :
  reachable B t this -> invariant B t this.
Proof.
  induction 1 as [t this Hinit|t this c _ IH Hc].
  - now apply invariant_initial.
  - now apply invariant_run.
Qed.

End Invariant.

Section Sessions.

Lemma fresh_initial (B : backend) (t : Z) (this : state B) :
  fresh B this -> start_time B t -> initial B t this.
Proof.
  destruct B; cbn.
  - intros -> Ht. split; [reflexivity|exact Ht].
  - intros [w [->| ->]] Ht.
    + exists (Some []), w. repeat split; try tauto.
      intros posts [= <-]. constructor.
    + exists None, w. repeat split; try tauto. discriminate.
Qed.

(** A session is a run. *)
Lemma session_reachable (B : backend) (t : Z) (this : state B) :
  session B t this -> reachable B t this.
Proof.
  induction 1 as [t this Hf Ht|t this c _ IH Hc].
  - apply reachable_initial. now apply fresh_initial.
  - now apply reachable_run.
Qed.

End Sessions.

Section Lookup.

Lemma number_eqb_eq (a b : number) : number_eqb a b = true -> a = b.
Proof.
  destruct a, b; simpl; try discriminate. intros H. f_equal. now apply Z.eqb_eq.
Qed.


(** [getPostById] returns the first record that matches, translated. *)
Lemma getPostById_find (B : backend) (this : state B) (rs : list (record B))
  (id : number) :
  records B this = Some rs ->
  fst (getPostById B id this) = Resolved (toPostModel B <$> find (matches B id) rs).
Proof.
  intros R. destruct B; cbn [getPostById].
  - cbn in R. injection R as <-. cbn.
    destruct (find _ (InMemoryRepository.posts this)); reflexivity.
  - rewrite (FileFacts.getPostById_available _ _ _ R). reflexivity.
Qed.


End Lookup.

Section Stability.

Lemma created_le_updated (B : backend) (t : Z) (r : record B) :
  wf_record B t r ->
  Date_le (PostModel.created (toPostModel B r)) (PostModel.updated (toPostModel B r)).
Proof.
  destruct B; intros (_ & a & u & Ha & Hu & Hau & _); cbn; rewrite Ha, Hu; exact Hau.
Qed.

(** Writing [r'] over [r] at index [k] is a stable update when [r'] keeps
    the id, the author and the creation time of [r]. *)
Lemma id_stable_insert (B : backend) (now : Z) (post : UpdatePostModel.t)
  (rs : list (record B)) (k : nat) (r r' : record B) :
  rs !! k = Some r ->
  PostModel.id (toPostModel B r') = PostModel.id (toPostModel B r) ->
  PostModel.createdBy (toPostModel B r') = PostModel.createdBy (toPostModel B r) ->
  PostModel.created (toPostModel B r') = PostModel.created (toPostModel B r) ->
  id_stable B (UpdatePost now post) rs (<[k := r']> rs).
Proof.
  intros Hk E1 E2 E3. split; [apply length_insert|].
  intros i x x' Hx Hx'. destruct (decide (k = i)) as [<-|Hne].
  - rewrite list_lookup_insert_eq in Hx' by (eapply lookup_lt_Some; eauto).
    injection Hx' as <-. rewrite Hk in Hx. injection Hx as <-. auto.
  - rewrite list_lookup_insert_ne in Hx' by exact Hne.
    rewrite Hx in Hx'. injection Hx' as <-. auto.
Qed.

Lemma id_stable_same (B : backend) (now : Z) (post : UpdatePostModel.t)
  (rs : list (record B)) :
  id_stable B (UpdatePost now post) rs rs.
Proof.
  split; [reflexivity|]. intros i x x' Hx Hx'.
  rewrite Hx in Hx'. injection Hx' as <-. auto.
Qed.

(** No call rewrites the id of a stored record. *)
Lemma run_id_stable (B : backend) (this : state B) (rs : list (record B)) (c : call) :
  records B this = Some rs ->
  exists rs', records B (run B c this) = Some rs' /\ id_stable B c rs rs'.
Proof.
  intros R. destruct B.
  - cbn in R. injection R as <-. destruct this as [posts].
    destruct c as [|id|now1 now2 post|now post|id]; cbn [run].
    + eexists. split; reflexivity.
    + eexists. split; reflexivity.
    + eexists. split; [reflexivity|]. eexists. reflexivity.
    + destruct posts as [|first rest].
      * eexists. split; [reflexivity|]. apply id_stable_same.
      * cbn [updatePost]. rewrite InMemoryFacts.updatePost_cons.
        eexists. split; [reflexivity|].
        apply (id_stable_insert InMemory now post (first :: rest) 0 first);
          reflexivity.
    + cbn [deletePost]. unfold InMemoryRepository.deletePost.
      destruct (findIndex _ _) as [k|]; eexists; (split; [reflexivity|]).
      * right. eexists. reflexivity.
      * left. reflexivity.
  - destruct c as [|id|now1 now2 post|now post|id]; cbn [run].
    + cbn [getAllPosts]. rewrite (FileFacts.getAllPosts_available _ _ R).
      eexists. split; reflexivity.
    + cbn [getPostById]. rewrite (FileFacts.getPostById_available _ _ _ R).
      eexists. split; reflexivity.
    + cbn [createPost]. rewrite (FileFacts.createPost_available _ _ _ _ _ R).
      eexists. split; [apply FileFacts.records_commit|]. eexists. reflexivity.
    + cbn [updatePost]. rewrite (FileFacts.updatePost_available _ _ _ _ R).
      match goal with
      | |- context [findIndex ?f ?l] => destruct (findIndex f l) as [k|] eqn:F
      end.
      * eexists. split; [apply FileFacts.records_commit|].
        apply findIndex_Some in F as (x & Hx & _).
        rewrite (list_lookup_total_correct _ _ _ Hx).
        apply (id_stable_insert File now post rs k x); auto.
      * eexists. split; [reflexivity|]. apply id_stable_same.
    + cbn [deletePost]. rewrite (FileFacts.deletePost_available _ _ _ R).
      match goal with
      | |- context [findIndex ?f ?l] => destruct (findIndex f l) as [k|] eqn:F
      end.
      * eexists. split; [apply FileFacts.records_commit|]. right. eexists. reflexivity.
      * eexists. split; [reflexivity|]. left. reflexivity.
Qed.

End Stability.

(** ** What the file backend does when asked for a missing or a stored id *)

Lemma updatePost_not_found (this : FileRepository.t) (rs : list FilePost.t)
  (now : Z) (post : UpdatePostModel.t) :
  records File this = Some rs ->
  (forall r, r ∈ rs -> matches File (UpdatePostModel.id post) r = false) ->
  fst (updatePost File now post this) = Rejected PostNotFound.
Proof.
  intros R H. cbn [updatePost].
  rewrite (FileFacts.updatePost_available _ _ _ _ R).
  pose proof (proj2 (findIndex_None _ _) H) as E. cbn in E. now rewrite E.
Qed.

Lemma deletePost_not_found (this : FileRepository.t) (rs : list FilePost.t)
  (id : number) :
  records File this = Some rs ->
  (forall r, r ∈ rs -> matches File id r = false) ->
  fst (deletePost File id this) = Rejected PostNotFound.
Proof.
  intros R H. cbn [deletePost].
  rewrite (FileFacts.deletePost_available _ _ _ R).
  pose proof (proj2 (findIndex_None _ _) H) as E. cbn in E. now rewrite E.
Qed.

(** The file backend does update the record it is asked to. *)
Lemma updatePost_file_round_trip (this : FileRepository.t) (rs : list FilePost.t)
  (now : Z) (post : UpdatePostModel.t) (k : nat) :
  records File this = Some rs -> writable File this ->
  findIndex (matches File (UpdatePostModel.id post)) rs = Some k ->
  exists old X this',
    rs !! k = Some old /\
    updatePost File now post this = (Resolved X, this') /\
    records File this' = Some (<[k := FilePost_updated now post old]> rs) /\
    persisted File this' = Some (<[k := FilePost_updated now post old]> rs) /\
    PostModel.id X = UpdatePostModel.id post /\
    PostModel.title X = UpdatePostModel.title post /\
    PostModel.description X = UpdatePostModel.description post /\
    PostModel.body X = UpdatePostModel.body post /\
    PostModel.createdBy X = FilePost.author old /\
    PostModel.created X = FilePost.added old /\
    PostModel.updated X = Time now.
Proof.
  intros R W F. cbn [updatePost].
  rewrite (FileFacts.updatePost_available _ _ _ _ R). cbn in F, W. rewrite F.
  apply findIndex_Some in F as (old & Hold & Fold & _).
  rewrite (list_lookup_total_correct _ _ _ Hold).
  unfold commit. rewrite W. exists old. do 2 eexists.
  split; [exact Hold|]. split; [reflexivity|].
  repeat split; try reflexivity. cbn. now apply number_eqb_eq.
Qed.

(** In a session of the file backend, the time of an update is not before
    the time the record was last updated. *)
Lemma updatePost_file_updated_ge (t now : Z) (this : FileRepository.t)
  (rs : list FilePost.t) (k : nat) (old : FilePost.t) :
  session File t this -> (t <= now)%Z ->
  records File this = Some rs -> rs !! k = Some old ->
  Date_le (PostModel.updated (toPostModel File old)) (Time now).
Proof.
  intros Hs Hnow R Hold.
  pose proof (invariant_records File t this rs
                (reachable_invariant File t this (session_reachable File t this Hs)) R)
    as Hwf.
  destruct (Forall_lookup_1 _ _ _ _ Hwf Hold) as (_ & a & u & _ & Hu & _ & Hut).
  cbn. rewrite Hu. cbn. lia.
Qed.

(** ** The claims of the specification *)

(** C1. On the seed of the in-memory backend no record has the id 7.
    [deletePost(7)] returns a promise that is never settled, and
    [updatePost] with id 7 resolves, having overwritten the first record;
    on an empty list it is never settled either. The file backend rejects
    both calls with [PostNotFound]. *)
Theorem not_found_in_memory :
  (forall r, r ∈ InMemoryRepository.posts InMemoryRepository.init ->
             matches InMemory (Num 7) r = false) /\
  deletePost InMemory (Num 7) InMemoryRepository.init
    = (Pending, InMemoryRepository.init) /\
  (exists X this',
      updatePost InMemory 1700000000000 (retitle 7) InMemoryRepository.init
        = (Resolved X, this') /\
      PostModel.id X = Num 1 /\ PostModel.title X = "T") /\
  updatePost InMemory 1700000000000 (retitle 7) (InMemoryRepository.mk [])
    = (Pending, InMemoryRepository.mk []) /\
  fst (deletePost File (Num 7) (FileRepository.init (Some []) true))
    = Rejected PostNotFound /\
  fst (updatePost File 1700000000000 (retitle 7) (FileRepository.init (Some []) true))
    = Rejected PostNotFound.
Proof.
  split; [|split; [reflexivity|split; [|repeat split; reflexivity]]].
  - intros r Hr. repeat (apply elem_of_cons in Hr as [->|Hr]; [reflexivity|]).
    now apply elem_of_nil in Hr.
  - do 2 eexists. split; [reflexivity|]. split; reflexivity.
Qed.

(** C2. On the seed of the in-memory backend, [updatePost] with id 2
    returns a post with id 1 and the author of the first post: the first
    record is overwritten and the record with id 2 is left as it was. *)
Theorem updatePost_in_memory_wrong_record :
  exists X first second,
    updatePost InMemory 1700000000000 (retitle 2) InMemoryRepository.init
      = (Resolved X, InMemoryRepository.mk [first; second]) /\
    PostModel.id X = Num 1 /\ PostModel.id X <> UpdatePostModel.id (retitle 2) /\
    PostModel.createdBy X = "johndoe" /\
    MemoryPost.id first = "1" /\ MemoryPost.post_title first = "T" /\
    InMemoryRepository.posts InMemoryRepository.init !! 1%nat = Some second /\
    MemoryPost.id second = "2" /\ MemoryPost.post_title second = "Second Post".
Proof.
  do 3 eexists. split; [reflexivity|].
  repeat split; try reflexivity. discriminate.
Qed.

(** C3, as stated, fails after a delete: on the seed, [deletePost(1)]
    leaves one record, with id 2; [createPost] then assigns the id 2 again,
    and [getPostById(2)] finds the older record first. *)
Lemma createPost_then_getPostById_counterexample :
  let this := run InMemory (DeletePost (Num 1)) InMemoryRepository.init in
  reachable InMemory seed_time this /\
  exists X this' Y,
    createPost InMemory 1700000000000 1700000000000 alice this = (Resolved X, this') /\
    PostModel.id X = Num 2 /\
    fst (getPostById InMemory (PostModel.id X) this') = Resolved (Some Y) /\
    PostModel.title Y = "Second Post" /\ PostModel.title X = "T" /\ Y <> X.
Proof.
  cbn zeta. split.
  - apply (reachable_run InMemory seed_time InMemoryRepository.init
             (DeletePost (Num 1))); [|exact I].
    apply reachable_initial. cbn. unfold seed_time, max_time. repeat split; lia.
  - do 3 eexists. split; [reflexivity|].
    split; [reflexivity|]. split; [reflexivity|].
    split; [reflexivity|]. split; [reflexivity|]. discriminate.
Qed.

(** C3, amended. If no stored record carries the id [length + 1] yet and
    [createPost] returns the post [X], then [getPostById] of the id of [X]
    returns [X]. *)
Theorem createPost_then_getPostById (B : backend) (this this' : state B)
  (rs : list (record B)) (now1 now2 : Z) (post : CreatePostModel.t)
  (X : PostModel.t) :
  records B this = Some rs ->
  (forall r, r ∈ rs -> matches B (Num (Z.of_nat (length rs) + 1)) r = false) ->
  createPost B now1 now2 post this = (Resolved X, this') ->
  fst (getPostById B (PostModel.id X) this') = Resolved (Some X).
Proof.
  intros R Hfree Hrun.
  pose proof (proj2 (find_None _ _) Hfree) as Hfind.
  destruct B; cbn [createPost getPostById] in *.
  - cbn in R. injection R as <-.
    unfold InMemoryRepository.createPost in Hrun.
    injection Hrun as <- <-.
    unfold InMemoryRepository.getPostById.
    cbn [InMemoryRepository.posts InMemoryRepository.inMemoryPostToPostModel
         PostModel.id MemoryPost.id fst].
    rewrite Number_String, find_app.
    cbn in Hfind. rewrite Hfind.
    cbn [MemoryPost.id]. rewrite String.eqb_refl. reflexivity.
  - rewrite (FileFacts.createPost_available _ _ _ _ _ R) in Hrun.
    unfold commit in Hrun.
    destruct (FileRepository.writable this); [|discriminate].
    injection Hrun as <- <-.
    rewrite (FileFacts.getPostById_available _
               (FileRepository.mk (Some (rs ++ [FilePost_created now1 now2 post rs]))
                  (Some (rs ++ [FilePost_created now1 now2 post rs])) true)
               (rs ++ [FilePost_created now1 now2 post rs]) eq_refl).
    cbn [fst]. rewrite find_app. cbn in Hfind.
    cbn [FileRepository.filePostToPostModel PostModel.id FilePost_created FilePost.id].
    rewrite Hfind. rewrite number_eqb_Num. reflexivity.
Qed.

Lemma createPost_then_getPostById_witness :
  exists X this',
    createPost InMemory 1700000000000 1700000000001 alice InMemoryRepository.init
      = (Resolved X, this') /\
    fst (getPostById InMemory (PostModel.id X) this') = Resolved (Some X).
Proof.
  do 2 eexists. split; [reflexivity|].
  apply (createPost_then_getPostById InMemory InMemoryRepository.init _ _
           1700000000000 1700000000001 alice _ eq_refl); [|reflexivity].
  intros r Hr. repeat (apply elem_of_cons in Hr as [->|Hr]; [reflexivity|]).
  now apply elem_of_nil in Hr.
Defined.

(** C4, as stated, fails on the timestamps: [createPost] reads the clock
    twice, once for [created] and once for [updated]; when the clock
    advances in between, the two differ. *)
Lemma createPost_returns_counterexample :
  reachable InMemory seed_time InMemoryRepository.init /\
  clock_ok seed_time (CreatePost 1700000000000 1700000000001 alice) /\
  exists X this',
    createPost InMemory 1700000000000 1700000000001 alice InMemoryRepository.init
      = (Resolved X, this') /\
    PostModel.created X = Time 1700000000000 /\
    PostModel.updated X = Time 1700000000001 /\
    PostModel.created X <> PostModel.updated X.
Proof.
  split; [|split].
  - apply reachable_initial. cbn. unfold seed_time, max_time. repeat split; lia.
  - cbn. unfold seed_time, max_time. lia.
  - do 2 eexists. split; [reflexivity|].
    split; [vm_compute; reflexivity|].
    split; [vm_compute; reflexivity|]. vm_compute. discriminate.
Qed.

(** C4, amended. The two readings of the clock being time values of a
    [Date], as every [new Date()] is, [createPost] returns a post whose id
    is the number of stored records plus one, an id no stored post has
    when every stored id is at most the number of stored records; whose
    [created] and [updated] are the two clock readings of the call, in
    that order, hence equal exactly when the two readings are equal; and
    whose title, description, body and author are those of the
    argument. *)
Theorem createPost_returns (B : backend) (this : state B) (rs : list (record B))
  (now1 now2 : Z) (post : CreatePostModel.t) :
  records B this = Some rs -> writable B this ->
  (- max_time <= now1 <= max_time)%Z -> (- max_time <= now2 <= max_time)%Z ->
  exists X this',
    createPost B now1 now2 post this = (Resolved X, this') /\
    PostModel.id X = Num (Z.of_nat (length rs) + 1) /\
    ((forall r, r ∈ rs ->
        exists k, PostModel.id (toPostModel B r) = Num k /\
                  (k <= Z.of_nat (length rs))%Z) ->
     forall r, r ∈ rs -> PostModel.id (toPostModel B r) <> PostModel.id X) /\
    PostModel.created X = Time now1 /\
    PostModel.updated X = Time now2 /\
    (PostModel.created X = PostModel.updated X <-> now1 = now2) /\
    PostModel.title X = CreatePostModel.title post /\
    PostModel.description X = CreatePostModel.description post /\
    PostModel.body X = CreatePostModel.body post /\
    PostModel.createdBy X = CreatePostModel.createdBy post.
Proof.
  intros R W H1 H2.
  assert (exists X this',
    createPost B now1 now2 post this = (Resolved X, this') /\
    PostModel.id X = Num (Z.of_nat (length rs) + 1) /\
    PostModel.created X = Time now1 /\
    PostModel.updated X = Time now2 /\
    PostModel.title X = CreatePostModel.title post /\
    PostModel.description X = CreatePostModel.description post /\
    PostModel.body X = CreatePostModel.body post /\
    PostModel.createdBy X = CreatePostModel.createdBy post)
    as (X & this' & Hrun & Hid & Hc & Hu & Hfields).
  { destruct B; cbn [createPost].
    - cbn in R. injection R as <-.
      do 2 eexists. split; [reflexivity|]. cbn.
      rewrite Number_String, !Date_of_clock_reading by lia.
      repeat split; reflexivity.
    - rewrite (FileFacts.createPost_available _ _ _ _ _ R).
      cbn in W. unfold commit. rewrite W.
      do 2 eexists. split; [reflexivity|]. repeat split; reflexivity. }
  exists X, this'. split; [exact Hrun|]. split; [exact Hid|].
  split; [|split; [exact Hc|split; [exact Hu|split; [|exact Hfields]]]].
  - intros Hle r Hr E. destruct (Hle r Hr) as (k & Hk & Hkle).
    rewrite Hk, Hid in E. injection E as E. lia.
  - rewrite Hc, Hu. split; [intros [= ->]; reflexivity|intros ->; reflexivity].
Qed.

Lemma createPost_returns_witness :
  exists X this',
    createPost File 1700000000000 1700000000001 alice
      (FileRepository.init (Some []) true) = (Resolved X, this') /\
    PostModel.id X = Num 1 /\
    PostModel.created X = Time 1700000000000 /\
    PostModel.updated X = Time 1700000000001.
Proof.
  destruct (createPost_returns File (FileRepository.init (Some []) true) []
              1700000000000 1700000000001 alice eq_refl eq_refl)
    as (X & this' & Hrun & Hid & _ & Hc & Hu & _).
  - unfold max_time. lia.
  - unfold max_time. lia.
  - exists X, this'. repeat split; assumption.
Defined.

(** C5. [createPost] gives the new post the number of stored records
    plus one as id: the record it appends carries that id (as text in
    memory, as a number in the file), the post it returns has it, and the
    file backend leaves the extended array in [db.json]. *)
Theorem createPost_id (B : backend) (this : state B) (rs : list (record B))
  (now1 now2 : Z) (post : CreatePostModel.t) :
  records B this = Some rs -> writable B this ->
  exists X r this',
    createPost B now1 now2 post this = (Resolved X, this') /\
    PostModel.id X = Num (Z.of_nat (length rs) + 1) /\
    X = toPostModel B r /\
    has_internal_id B (Z.of_nat (length rs) + 1) r /\
    records B this' = Some (rs ++ [r]) /\
    (B = File -> persisted B this' = Some (rs ++ [r])).
Proof.
  intros R W. destruct B; cbn [createPost].
  - cbn in R. injection R as <-.
    exists (toPostModel InMemory (MemoryPost_created now1 now2 post (InMemoryRepository.posts this))),
      (MemoryPost_created now1 now2 post (InMemoryRepository.posts this)).
    eexists. split; [reflexivity|].
    repeat split; try reflexivity; [|discriminate].
    cbn. apply Number_String.
  - rewrite (FileFacts.createPost_available _ _ _ _ _ R).
    cbn in W. unfold commit. rewrite W.
    exists (toPostModel File (FilePost_created now1 now2 post rs)),
      (FilePost_created now1 now2 post rs).
    eexists. split; [reflexivity|]. repeat split; reflexivity.
Qed.

Lemma createPost_id_witness :
  (exists X this',
      createPost InMemory 1700000000000 1700000000000 alice InMemoryRepository.init
        = (Resolved X, this') /\
      PostModel.id X = Num 3) /\
  (exists X r this',
      createPost File 1700000000000 1700000000000 alice
        (FileRepository.init (Some []) true) = (Resolved X, this') /\
      PostModel.id X = Num 1 /\
      FileRepository.db_json this' = Some [r] /\ FilePost.id r = Num 1).
Proof.
  split.
  - destruct (createPost_id InMemory InMemoryRepository.init _
                1700000000000 1700000000000 alice eq_refl I)
      as (X & r & this' & Hrun & Hid & _).
    exists X, this'. split; [exact Hrun|exact Hid].
  - destruct (createPost_id File (FileRepository.init (Some []) true) []
                1700000000000 1700000000000 alice eq_refl eq_refl)
      as (X & r & this' & Hrun & Hid & _ & Hr & _ & Hdisk).
    exists X, r, this'. split; [exact Hrun|]. split; [exact Hid|].
    split; [exact (Hdisk eq_refl)|exact Hr].
Defined.

(** C6. When no stored record matches [id], [getPostById] resolves to
    the absent value: the promise is resolved, not rejected, so the
    outcome differs from every failure, [PostNotFound] included, and the
    stored records are left as they were. *)
Theorem getPostById_absent (B : backend) (this : state B) (id : number)
  (rs : list (record B)) :
  records B this = Some rs ->
  (forall r, r ∈ rs -> matches B id r = false) ->
  fst (getPostById B id this) = Resolved None /\
  (forall e, fst (getPostById B id this) <> Rejected e) /\
  records B (snd (getPostById B id this)) = Some rs.
Proof.
  intros R H.
  assert (fst (getPostById B id this) = Resolved None /\
          records B (snd (getPostById B id this)) = Some rs) as [E1 E2].
  { destruct B; cbn [getPostById].
    - cbn in R. injection R as <-.
      unfold InMemoryRepository.getPostById.
      pose proof (proj2 (find_None _ _) H) as E. cbn in E. rewrite E.
      split; reflexivity.
    - rewrite (FileFacts.getPostById_available _ _ _ R).
      pose proof (proj2 (find_None _ _) H) as E. cbn in E. rewrite E.
      split; reflexivity. }
  repeat split; auto. intros e. rewrite E1. discriminate.
Qed.

Lemma getPostById_absent_witness :
  fst (getPostById InMemory (Num 7) InMemoryRepository.init) = Resolved None /\
  fst (getPostById File (Num 7) (FileRepository.init (Some []) true)) = Resolved None.
Proof.
  split.
  - apply (getPostById_absent InMemory InMemoryRepository.init (Num 7) _ eq_refl).
    intros r Hr. repeat (apply elem_of_cons in Hr as [->|Hr]; [reflexivity|]).
    now apply elem_of_nil in Hr.
  - apply (getPostById_absent File (FileRepository.init (Some []) true) (Num 7)
             [] eq_refl).
    intros r Hr. now apply elem_of_nil in Hr.
Defined.




(** C8, as stated, fails when the clock and the file are free:
    [createPost] takes [created] from its first reading and [updated] from
    its second, so a clock that steps back between the two leaves
    [created] after [updated]; [updatePost] at a reading before the
    instant of the seed leaves a seed post with [updated] before
    [created]; and a file repository serves the records of its [db.json]
    as they are, whatever the order of their timestamps. *)
Lemma created_le_updated_counterexample :
  (exists r,
     records InMemory
       (run InMemory (CreatePost 1700000000001 1700000000000 alice)
          InMemoryRepository.init) = Some [seed_first; seed_second; r] /\
     PostModel.created (toPostModel InMemory r) = Time 1700000000001 /\
     PostModel.updated (toPostModel InMemory r) = Time 1700000000000 /\
     ~ Date_le (PostModel.created (toPostModel InMemory r))
               (PostModel.updated (toPostModel InMemory r))) /\
  (exists r,
     records InMemory
       (run InMemory (UpdatePost 1500000000000 (retitle 1)) InMemoryRepository.init)
     = Some [r; seed_second] /\
     PostModel.created (toPostModel InMemory r) = Time 1609459200000 /\
     PostModel.updated (toPostModel InMemory r) = Time 1500000000000 /\
     ~ Date_le (PostModel.created (toPostModel InMemory r))
               (PostModel.updated (toPostModel InMemory r))) /\
  (exists r,
     records File
       (FileRepository.init
          (Some [FilePost.mk (Num 1) "T" "D" "B" "alice"
                   (Time 1700000000001) (Time 1700000000000)]) true)
     = Some [r] /\
     PostModel.created (toPostModel File r) = Time 1700000000001 /\
     PostModel.updated (toPostModel File r) = Time 1700000000000 /\
     ~ Date_le (PostModel.created (toPostModel File r))
               (PostModel.updated (toPostModel File r))).
Proof.
  split; [|split].
  - exists (MemoryPost_created 1700000000001 1700000000000 alice
              [seed_first; seed_second]).
    split; [reflexivity|].
    split; [vm_compute; reflexivity|]. split; [vm_compute; reflexivity|].
    vm_compute. intros H. apply H. reflexivity.
  - exists (MemoryPost_updated 1500000000000 (retitle 1) seed_first).
    split; [reflexivity|].
    split; [vm_compute; reflexivity|]. split; [vm_compute; reflexivity|].
    vm_compute. intros H. apply H. reflexivity.
  - eexists. split; [reflexivity|]. split; [reflexivity|]. split; [reflexivity|].
    vm_compute. intros H. apply H. reflexivity.
Qed.

(** C8, amended. In a session, that is from the in-memory seed or from a
    file repository with nothing to load, under a clock that never goes
    backwards and, for the in-memory backend, never reads before the
    instant of its seed, each stored post has [created <= updated]. And
    in every state, whatever the clock, no call of the contract rewrites
    the id of a stored record: reads leave the records alone,
    [createPost] appends one, [deletePost] removes at most one, and
    [updatePost] keeps the id (and the author and creation time) of the
    record at every position. *)
Theorem session_created_le_updated_id_stable (B : backend) :
  (forall t this rs r,
     session B t this -> records B this = Some rs -> r ∈ rs ->
     Date_le (PostModel.created (toPostModel B r))
             (PostModel.updated (toPostModel B r))) /\
  (forall this rs c,
     records B this = Some rs ->
     exists rs', records B (run B c this) = Some rs' /\ id_stable B c rs rs').
Proof.
  split.
  - intros t this rs r Hs R Hr.
    pose proof (invariant_records B t this rs
                  (reachable_invariant B t this (session_reachable B t this Hs)) R)
      as Hwf.
    rewrite Forall_forall in Hwf. apply (created_le_updated B t), Hwf, Hr.
  - intros this rs c R. now apply run_id_stable.
Qed.

Lemma session_created_le_updated_id_stable_witness :
  Date_le
    (PostModel.created
       (toPostModel InMemory (MemoryPost_updated 1700000000000 (retitle 2) seed_first)))
    (PostModel.updated
       (toPostModel InMemory (MemoryPost_updated 1700000000000 (retitle 2) seed_first))) /\
  exists rs',
    records InMemory
      (run InMemory (DeletePost (Num 1))
         (run InMemory (UpdatePost 1700000000000 (retitle 2)) InMemoryRepository.init))
    = Some rs' /\
    id_stable InMemory (DeletePost (Num 1))
      [MemoryPost_updated 1700000000000 (retitle 2) seed_first; seed_second] rs'.
Proof.
  destruct (session_created_le_updated_id_stable InMemory) as [Hle Hstable].
  split.
  - apply (Hle 1700000000000%Z
             (run InMemory (UpdatePost 1700000000000 (retitle 2))
                InMemoryRepository.init)
             [MemoryPost_updated 1700000000000 (retitle 2) seed_first; seed_second]).
    + apply (session_run InMemory seed_time InMemoryRepository.init
               (UpdatePost 1700000000000 (retitle 2))).
      * apply session_start; [reflexivity|].
        cbn. unfold seed_time, max_time. lia.
      * cbn. unfold seed_time, max_time. lia.
    + reflexivity.
    + apply list_elem_of_here.
  - apply (Hstable
             (run InMemory (UpdatePost 1700000000000 (retitle 2))
                InMemoryRepository.init)
             [MemoryPost_updated 1700000000000 (retitle 2) seed_first; seed_second]
             (DeletePost (Num 1))).
    reflexivity.
Defined.

(** C9. Reads are idempotent: two calls of [getAllPosts] in a row settle
    in the same way, with the same posts in the same order (the stored
    records translated to the public model), and neither call changes
    what the backend stores. *)
Theorem getAllPosts_twice (B : backend) (this : state B) :
  let (r1, this1) := getAllPosts B this in
  let (r2, this2) := getAllPosts B this1 in
  r1 = r2 /\
  r1 = match records B this with
       | Some rs => Resolved (map (toPostModel B) rs)
       | None => Rejected StorageUnavailable
       end /\
  records B this1 = records B this /\
  records B this2 = records B this.
Proof.
  destruct B; cbn [getAllPosts].
  - cbn. auto.
  - destruct (records File this) as [rs|] eqn:R.
    + rewrite (FileFacts.getAllPosts_available _ _ R).
      rewrite (FileFacts.getAllPosts_available (loaded this rs) rs eq_refl).
      cbn. auto.
    + destruct (FileFacts.unavailable this R) as (E & _).
      rewrite E, E, R. auto.
Qed.

(** C10. In the in-memory backend, on a non-empty list, [updatePost]
    resolves for every argument, whatever its id: it overwrites title,
    description and body of the first record of the list and returns that
    record translated, with the id of the first record. *)
Theorem in_memory_updatePost_first (now : Z) (post : UpdatePostModel.t)
  (this : InMemoryRepository.t) :
  InMemoryRepository.posts this <> [] ->
  exists first rest X,
    InMemoryRepository.posts this = first :: rest /\
    updatePost InMemory now post this =
      (Resolved X, InMemoryRepository.mk (MemoryPost_updated now post first :: rest)) /\
    X = toPostModel InMemory (MemoryPost_updated now post first) /\
    PostModel.id X = Number_ (MemoryPost.id first) /\
    PostModel.title X = UpdatePostModel.title post /\
    PostModel.description X = UpdatePostModel.description post /\
    PostModel.body X = UpdatePostModel.body post.
Proof.
  destruct this as [[|first rest]]; cbn [InMemoryRepository.posts]; [congruence|].
  intros _. exists first, rest. eexists. split; [reflexivity|].
  cbn [updatePost]. rewrite InMemoryFacts.updatePost_cons.
  repeat split; reflexivity.
Qed.

Lemma in_memory_updatePost_first_witness :
  exists X this',
    updatePost InMemory 1700000000000 (retitle 2) InMemoryRepository.init
      = (Resolved X, this') /\
    PostModel.id X = Num 1 /\ PostModel.title X = "T".
Proof.
  destruct (in_memory_updatePost_first 1700000000000 (retitle 2)
              InMemoryRepository.init)
    as (first & rest & X & Hposts & Hrun & HX & Hid & Htitle & _).
  - cbn. discriminate.
  - injection Hposts as <- <-. exists X. eexists. split; [exact Hrun|].
    split; [exact Hid|exact Htitle].
Defined.

(** * Further properties of the code *)

Section FileSteps.

(** What a call does to a file repository that can serve a collection. *)
Lemma run_File_cases (this : FileRepository.t) (rs : list FilePost.t) (c : call) :
  records File this = Some rs ->
  (outcome File c this = Fulfilled /\ is_mutation c = false /\
   run File c this = loaded this rs) \/
  (outcome File c this = Failed PostNotFound /\ is_mutation c = true /\
   run File c this = loaded this rs /\
   exists id, target c = Some id /\ forall r, r ∈ rs -> matches File id r = false) \/
  (exists rs', is_mutation c = true /\
     (forall A (a : A), run File c this = snd (commit this rs' a)) /\
     outcome File c this =
       (if FileRepository.writable this then Fulfilled else Failed StorageUnavailable)).
Proof.
  intros R. destruct c as [|id|now1 now2 post|now post|id]; cbn [outcome run].
  - left. cbn [getAllPosts]. rewrite (FileFacts.getAllPosts_available _ _ R). auto.
  - left. cbn [getPostById]. rewrite (FileFacts.getPostById_available _ _ _ R). auto.
  - right. right. cbn [createPost].
    rewrite (FileFacts.createPost_available _ _ _ _ _ R).
    eexists. split; [reflexivity|]. unfold commit.
    destruct (FileRepository.writable this); split; reflexivity.
  - cbn [updatePost]. rewrite (FileFacts.updatePost_available _ _ _ _ R).
    match goal with
    | |- context [findIndex ?f ?l] => destruct (findIndex f l) as [k|] eqn:F
    end.
    + right. right. eexists. split; [reflexivity|]. unfold commit.
      destruct (FileRepository.writable this); split; reflexivity.
    + right. left. repeat split; try reflexivity.
      eexists. split; [reflexivity|]. now apply findIndex_None.
  - cbn [deletePost]. rewrite (FileFacts.deletePost_available _ _ _ R).
    match goal with
    | |- context [findIndex ?f ?l] => destruct (findIndex f l) as [k|] eqn:F
    end.
    + right. right. eexists. split; [reflexivity|]. unfold commit.
      destruct (FileRepository.writable this); split; reflexivity.
    + right. left. repeat split; try reflexivity.
      eexists. split; [reflexivity|]. now apply findIndex_None.
Qed.

Lemma run_File_unavailable (this : FileRepository.t) (c : call) :
  records File this = None ->
  outcome File c this = Failed StorageUnavailable /\ run File c this = this.
Proof.
  intros R. destruct (FileFacts.unavailable this R) as (E1 & E2 & E3 & E4 & E5).
  destruct c; cbn [outcome run getAllPosts getPostById createPost updatePost deletePost];
    rewrite ?E1, ?E2, ?E3, ?E4, ?E5; split; reflexivity.
Qed.

End FileSteps.

(** X1. [loadPosts] reads [db.json] once. After any call on a repository
    that could serve a collection, whatever another process does to the
    file (new content, removal, new permissions), [getAllPosts] and
    [getPostById] answer as if nothing had happened to it. *)
Theorem loadPosts_once (this : FileRepository.t) (rs : list FilePost.t) (c : call)
  (db : option FileRepository.Json) (w : bool) (id : number) :
  records File this = Some rs ->
  fst (getAllPosts File (external_edit db w (run File c this)))
    = fst (getAllPosts File (run File c this)) /\
  fst (getPostById File id (external_edit db w (run File c this)))
    = fst (getPostById File id (run File c this)).
Proof.
  intros R.
  assert (exists rs', FileRepository.FilePosts (run File c this) = Some rs')
    as [rs' Hc].
  { destruct (run_File_cases this rs c R)
      as [(_ & _ & ->)|[(_ & _ & -> & _)|(rs' & _ & E & _)]].
    - eexists. reflexivity.
    - eexists. reflexivity.
    - rewrite (E unit tt). unfold commit.
      destruct (FileRepository.writable this); eexists; reflexivity. }
  assert (forall that, FileRepository.FilePosts that = Some rs' ->
                       records File that = Some rs') as Hrec.
  { intros that E. cbn. now rewrite E. }
  cbn [getAllPosts getPostById].
  rewrite (FileFacts.getAllPosts_available _ rs' (Hrec _ Hc)).
  rewrite (FileFacts.getAllPosts_available (external_edit db w (run File c this))
             rs' (Hrec (external_edit db w (run File c this)) Hc)).
  rewrite (FileFacts.getPostById_available _ _ rs' (Hrec _ Hc)).
  rewrite (FileFacts.getPostById_available _ (external_edit db w (run File c this))
             rs' (Hrec (external_edit db w (run File c this)) Hc)).
  split; reflexivity.
Qed.

Lemma loadPosts_once_witness :
  fst (getAllPosts File
         (external_edit None false
            (run File GetAllPosts (FileRepository.init (Some []) true))))
    = Resolved [].
Proof.
  exact (proj1 (loadPosts_once (FileRepository.init (Some []) true) [] GetAllPosts
                  None false (Num 1) eq_refl)).
Defined.

(** X2. When [db.json] cannot be read and nothing has been loaded, every
    call of the file backend is rejected with the storage failure and
    leaves the repository and the file as they were: no call falls back
    to an empty collection. *)
Theorem storage_unavailable (this : FileRepository.t) (c : call) :
  records File this = None ->
  outcome File c this = Failed StorageUnavailable /\ run File c this = this.
Proof.
  intros R. destruct (FileFacts.unavailable this R) as (E1 & E2 & E3 & E4 & E5).
  destruct c as [|id|now1 now2 post|now post|id];
    cbn [outcome run getAllPosts getPostById createPost updatePost deletePost].
  - rewrite E1. split; reflexivity.
  - rewrite E2. split; reflexivity.
  - rewrite E3. split; reflexivity.
  - rewrite E4. split; reflexivity.
  - rewrite E5. split; reflexivity.
Qed.

Lemma storage_unavailable_witness :
  outcome File (CreatePost 1700000000000 1700000000000 alice)
    (FileRepository.init None true) = Failed StorageUnavailable /\
  run File (CreatePost 1700000000000 1700000000000 alice)
    (FileRepository.init None true) = FileRepository.init None true.
Proof.
  exact (storage_unavailable (FileRepository.init None true)
           (CreatePost 1700000000000 1700000000000 alice) eq_refl).
Defined.

(** X3. The file backend changes its loaded array before it writes. When
    [db.json] cannot be written, a mutation is not fulfilled and the file
    keeps its content, yet the repository goes on serving the collection
    that the mutation would have left had the write succeeded. *)
Theorem failed_write_keeps_the_change (this : FileRepository.t)
  (rs : list FilePost.t) (c : call) :
  records File this = Some rs -> FileRepository.writable this = false ->
  is_mutation c = true ->
  outcome File c this <> Fulfilled /\
  FileRepository.db_json (run File c this) = FileRepository.db_json this /\
  records File (run File c this)
    = records File (run File c (external_edit (FileRepository.db_json this) true this)).
Proof.
  intros R W M.
  assert (records File (external_edit (FileRepository.db_json this) true this)
          = Some rs) as R' by exact R.
  destruct c as [| |now1 now2 post|now post|id]; try discriminate M;
    cbn [outcome run createPost updatePost deletePost].
  - rewrite (FileFacts.createPost_available _ _ _ this rs R),
      (FileFacts.createPost_available _ _ _ _ rs R').
    unfold commit. cbn. rewrite W. cbn. repeat split. discriminate.
  - rewrite (FileFacts.updatePost_available _ _ this rs R),
      (FileFacts.updatePost_available _ _ _ rs R').
    destruct (findIndex _ rs) as [k|]; unfold commit; cbn; rewrite ?W; cbn;
      repeat split; discriminate.
  - rewrite (FileFacts.deletePost_available _ this rs R),
      (FileFacts.deletePost_available _ _ rs R').
    destruct (findIndex _ rs) as [k|]; unfold commit; cbn; rewrite ?W; cbn;
      repeat split; discriminate.
Qed.

Lemma failed_write_keeps_the_change_witness :
  outcome File (CreatePost 1700000000000 1700000000000 alice)
    (FileRepository.init (Some []) false) <> Fulfilled /\
  FileRepository.db_json
    (run File (CreatePost 1700000000000 1700000000000 alice)
       (FileRepository.init (Some []) false)) = Some [] /\
  records File
    (run File (CreatePost 1700000000000 1700000000000 alice)
       (FileRepository.init (Some []) false))
  = Some [FilePost_created 1700000000000 1700000000000 alice []].
Proof.
  exact (failed_write_keeps_the_change (FileRepository.init (Some []) false) []
           (CreatePost 1700000000000 1700000000000 alice) eq_refl eq_refl eq_refl).
Defined.

(** X4. Write-through: whenever [createPost], [updatePost] or [deletePost]
    of the file backend is fulfilled, [db.json] holds exactly the
    collection the repository serves from then on. *)
Theorem fulfilled_mutation_writes_through (this : FileRepository.t) (c : call) :
  is_mutation c = true -> outcome File c this = Fulfilled ->
  exists rs', records File (run File c this) = Some rs' /\
              FileRepository.db_json (run File c this) = Some rs'.
Proof.
  intros M O. destruct (records File this) as [rs|] eqn:R.
  - destruct (run_File_cases this rs c R)
      as [(_ & M' & _)|[(O' & _)|(rs' & _ & E & O')]]; [congruence|congruence|].
    rewrite O in O'. exists rs'. rewrite (E unit tt). unfold commit.
    destruct (FileRepository.writable this); [|discriminate]. split; reflexivity.
  - destruct (run_File_unavailable this c R) as [O' _]. congruence.
Qed.

Lemma fulfilled_mutation_writes_through_witness :
  exists rs',
    records File
      (run File (DeletePost (Num 1))
         (run File (CreatePost 1700000000000 1700000000000 alice)
            (FileRepository.init (Some []) true))) = Some rs' /\
    FileRepository.db_json
      (run File (DeletePost (Num 1))
         (run File (CreatePost 1700000000000 1700000000000 alice)
            (FileRepository.init (Some []) true))) = Some rs'.
Proof.
  exact (fulfilled_mutation_writes_through
           (run File (CreatePost 1700000000000 1700000000000 alice)
              (FileRepository.init (Some []) true))
           (DeletePost (Num 1)) eq_refl eq_refl).
Defined.

(** X5. [db.json] is written by fulfilled mutations only: a read, and a
    call that is rejected, leave the file with the content it had. *)
Theorem only_fulfilled_mutations_write (this : FileRepository.t) (c : call) :
  is_mutation c = false \/ outcome File c this <> Fulfilled ->
  FileRepository.db_json (run File c this) = FileRepository.db_json this.
Proof.
  intros H. destruct (records File this) as [rs|] eqn:R.
  - destruct (run_File_cases this rs c R)
      as [(_ & _ & ->)|[(_ & _ & -> & _)|(rs' & M & E & O)]];
      [reflexivity|reflexivity|].
    rewrite (E unit tt). unfold commit.
    destruct (FileRepository.writable this); [|reflexivity].
    destruct H as [H|H]; congruence.
  - destruct (run_File_unavailable this c R) as [_ ->]. reflexivity.
Qed.

Lemma only_fulfilled_mutations_write_witness :
  FileRepository.db_json
    (run File (UpdatePost 1700000000000 (retitle 7))
       (FileRepository.init (Some []) true)) = Some [].
Proof.
  apply (only_fulfilled_mutations_write (FileRepository.init (Some []) true)
           (UpdatePost 1700000000000 (retitle 7))).
  right. discriminate.
Defined.

(** X6. The in-memory backend never rejects, and the calls that are
    never settled are exactly two of its calls: [updatePost] on an empty
    list, and [deletePost] of an id that no record matches. No call of the
    file backend is left unsettled. *)
Theorem unsettled_calls :
  (forall c this,
      outcome InMemory c this = Unsettled <->
      hangs c (InMemoryRepository.posts this)) /\
  (forall c this e, outcome InMemory c this <> Failed e) /\
  (forall c this, outcome File c this <> Unsettled).
Proof.
  split; [|split].
  - intros c [posts].
    destruct c as [|id|now1 now2 post|now post|id]; cbn [outcome hangs];
      cbn [InMemoryRepository.posts].
    + cbn. split; [discriminate|tauto].
    + cbn. split; [discriminate|tauto].
    + cbn. split; [discriminate|tauto].
    + destruct posts as [|first rest].
      * cbn. tauto.
      * cbn [updatePost]. rewrite InMemoryFacts.updatePost_cons. cbn.
        split; discriminate.
    + cbn [deletePost]. unfold InMemoryRepository.deletePost.
      cbn [InMemoryRepository.posts].
      destruct (findIndex _ posts) as [k|] eqn:F; cbn.
      * split; [discriminate|]. intros H.
        apply findIndex_None in H. cbn in H. congruence.
      * split; [intros _|reflexivity]. now apply findIndex_None.
  - intros c [posts] e.
    destruct c as [|id|now1 now2 post|now post|id]; cbn [outcome].
    + discriminate.
    + discriminate.
    + discriminate.
    + destruct posts as [|first rest]; [discriminate|].
      cbn [updatePost]. rewrite InMemoryFacts.updatePost_cons. discriminate.
    + cbn [deletePost]. unfold InMemoryRepository.deletePost.
      destruct (findIndex _ _); discriminate.
  - intros c this. destruct (records File this) as [rs|] eqn:R.
    + destruct (run_File_cases this rs c R)
        as [(-> & _)|[(-> & _)|(rs' & _ & _ & ->)]]; try discriminate.
      destruct (FileRepository.writable this); discriminate.
    + destruct (run_File_unavailable this c R) as [-> _]. discriminate.
Qed.

(** X7. On a [db.json] that cannot be read, is not JSON, or holds an
    array of post records, the file backend rejects with the storage
    failure only when it has no collection to serve or when a mutation
    cannot write [db.json], and with [PostNotFound] only from [updatePost]
    or [deletePost] of an id that no record matches. (A file that parses
    to another value is not a state of [FileRepository.t]; there the code
    fails with a type error.) *)
Theorem rejections (this : FileRepository.t) (c : call) (e : Error) :
  outcome File c this = Failed e ->
  (e = StorageUnavailable /\
   (records File this = None \/
    (is_mutation c = true /\ FileRepository.writable this = false))) \/
  (e = PostNotFound /\ is_mutation c = true /\
   exists id rs, target c = Some id /\ records File this = Some rs /\
                 forall r, r ∈ rs -> matches File id r = false).
Proof.
  intros O. destruct (records File this) as [rs|] eqn:R.
  - destruct (run_File_cases this rs c R)
      as [(O' & _)|[(O' & M & _ & id & T & Hnone)|(rs' & M & _ & O')]].
    + congruence.
    + right. rewrite O in O'. injection O' as ->.
      repeat split; auto. exists id, rs. auto.
    + left. rewrite O in O'.
      destruct (FileRepository.writable this) eqn:W; [discriminate|].
      injection O' as ->. auto.
  - destruct (run_File_unavailable this c R) as [O' _].
    rewrite O in O'. injection O' as ->. auto.
Qed.

Lemma rejections_witness :
  (PostNotFound = StorageUnavailable /\
   (records File (FileRepository.init (Some []) true) = None \/
    (is_mutation (DeletePost (Num 7)) = true /\
     FileRepository.writable (FileRepository.init (Some []) true) = false))) \/
  (PostNotFound = PostNotFound /\ is_mutation (DeletePost (Num 7)) = true /\
   exists id rs,
     target (DeletePost (Num 7)) = Some id /\
     records File (FileRepository.init (Some []) true) = Some rs /\
     forall r, r ∈ rs -> matches File id r = false).
Proof.
  exact (rejections (FileRepository.init (Some []) true) (DeletePost (Num 7))
           PostNotFound eq_refl).
Defined.

Section MoreArrays.

Context {A : Type} (f : A -> bool).

Lemma find_Some (arr : list A) (x : A) :
  find f arr = Some x ->
  exists i, arr !! i = Some x /\ f x = true /\ findIndex f arr = Some i.
Proof.
  rewrite find_findIndex. destruct (findIndex f arr) as [i|] eqn:F; [|discriminate].
  cbn. intros Hx. exists i. apply findIndex_Some in F as (y & Hy & Fy & _).
  rewrite Hx in Hy. injection Hy as <-. auto.
Qed.



(** Removing an element that fails the test does not change what is found. *)
Lemma find_splice (arr : list A) (k : nat) (x : A) :
  arr !! k = Some x -> f x = false -> find f (splice k arr) = find f arr.
Proof.
  unfold splice. revert k. induction arr as [|a arr IH]; intros k Hk Fx.
  - discriminate.
  - destruct k as [|k]; cbn in Hk |- *.
    + injection Hk as ->. now rewrite Fx.
    + destruct (f a); [reflexivity|]. now apply IH.
Qed.


End MoreArrays.

Section Public.

Ltac case_findIndex H k F :=
  match type of H with
  | context [findIndex ?f ?l] => destruct (findIndex f l) as [k|] eqn:F
  end.

(** The served collection, as [getAllPosts] shows it. *)
Lemma getAllPosts_records (B : backend) (this : state B) (rs : list (record B)) :
  records B this = Some rs ->
  fst (getAllPosts B this) = Resolved (toPostModel B <$> rs).
Proof.
  intros R. destruct B; cbn [getAllPosts].
  - cbn in R. injection R as <-. reflexivity.
  - rewrite (FileFacts.getAllPosts_available _ _ R). reflexivity.
Qed.

Lemma getAllPosts_resolved (B : backend) (this : state B) (posts : list PostModel.t) :
  fst (getAllPosts B this) = Resolved posts ->
  exists rs, records B this = Some rs /\ posts = toPostModel B <$> rs.
Proof.
  intros H. destruct (records B this) as [rs|] eqn:R.
  - rewrite (getAllPosts_records B this rs R) in H. injection H as <-. eauto.
  - destruct B; [discriminate|].
    destruct (FileFacts.unavailable this R) as (E & _).
    cbn [getAllPosts] in H. rewrite E in H. discriminate.
Qed.

Lemma getPostById_resolved (B : backend) (this : state B) (id : number)
  (o : option PostModel.t) :
  fst (getPostById B id this) = Resolved o ->
  exists rs, records B this = Some rs /\ o = toPostModel B <$> find (matches B id) rs.
Proof.
  intros H. destruct (records B this) as [rs|] eqn:R.
  - rewrite (getPostById_find B this rs id R) in H. injection H as <-. eauto.
  - destruct B; [discriminate|].
    destruct (FileFacts.unavailable this R) as (_ & E & _).
    cbn [getPostById] in H. rewrite E in H. discriminate.
Qed.

(** A record that matches an integer id carries it in the public model. *)
Lemma matches_public_id (B : backend) (z : Z) (r : record B) :
  matches B (Num z) r = true -> PostModel.id (toPostModel B r) = Num z.
Proof.
  destruct B; cbn; intros H.
  - apply String.eqb_eq in H. rewrite H. apply Number_String.
  - now apply number_eqb_eq.
Qed.


(** What the three mutations leave to serve, when they are fulfilled. *)
Lemma createPost_resolved (B : backend) (this this' : state B) (now1 now2 : Z)
  (post : CreatePostModel.t) (X : PostModel.t) :
  createPost B now1 now2 post this = (Resolved X, this') ->
  exists rs r, records B this = Some rs /\ records B this' = Some (rs ++ [r]) /\
               X = toPostModel B r.
Proof.
  intros H. destruct B; cbn [createPost] in H.
  - unfold InMemoryRepository.createPost in H. injection H as <- <-.
    do 2 eexists. repeat split; reflexivity.
  - destruct (records File this) as [rs|] eqn:R.
    + rewrite (FileFacts.createPost_available _ _ _ _ _ R) in H.
      unfold commit in H. destruct (FileRepository.writable this); [|discriminate].
      injection H as <- <-. do 2 eexists. repeat split; reflexivity.
    + destruct (FileFacts.unavailable this R) as (_ & _ & E & _).
      rewrite E in H. discriminate.
Qed.

Lemma deletePost_resolved (B : backend) (this this' : state B) (id v : number) :
  deletePost B id this = (Resolved v, this') ->
  exists rs k r, records B this = Some rs /\ findIndex (matches B id) rs = Some k /\
                 rs !! k = Some r /\ records B this' = Some (splice k rs) /\
                 (forall z, id = Num z -> v = id).
Proof.
  intros H. destruct B; cbn [deletePost] in H.
  - unfold InMemoryRepository.deletePost in H.
    destruct (findIndex _ _) as [k|] eqn:F; [|discriminate].
    injection H as <- <-. pose proof F as F'.
    apply findIndex_Some in F' as (r & Hr & _).
    exists (InMemoryRepository.posts this), k, r. repeat split; auto.
  - destruct (records File this) as [rs|] eqn:R.
    + rewrite (FileFacts.deletePost_available _ _ _ R) in H.
      case_findIndex H k F; [|discriminate].
      unfold commit in H. destruct (FileRepository.writable this); [|discriminate].
      injection H as <- <-. pose proof F as F'.
      apply findIndex_Some in F' as (r & Hr & Fr & _).
      exists rs, k, r. repeat split; auto.
      intros z _. rewrite (list_lookup_total_correct _ _ _ Hr).
      now apply number_eqb_eq.
    + destruct (FileFacts.unavailable this R) as (_ & _ & _ & _ & E).
      rewrite E in H. discriminate.
Qed.

Lemma updatePost_resolved (B : backend) (this this' : state B) (now : Z)
  (post : UpdatePostModel.t) (X : PostModel.t) :
  updatePost B now post this = (Resolved X, this') ->
  exists rs k old r, records B this = Some rs /\ rs !! k = Some old /\
    records B this' = Some (<[k := r]> rs) /\ X = toPostModel B r /\
    PostModel.id (toPostModel B r) = PostModel.id (toPostModel B old) /\
    (forall id, matches B id r = matches B id old) /\
    (forall id j y, (j < k)%nat -> rs !! j = Some y ->
                    matches B id old = true -> matches B id y = false).
Proof.
  intros H. destruct B; cbn [updatePost] in H.
  - destruct this as [[|first rest]]; [discriminate|].
    rewrite InMemoryFacts.updatePost_cons in H. injection H as <- <-.
    exists (first :: rest), 0%nat, first, (MemoryPost_updated now post first).
    repeat split; auto. intros id j y Hj. lia.
  - destruct (records File this) as [rs|] eqn:R.
    + rewrite (FileFacts.updatePost_available _ _ _ _ R) in H.
      case_findIndex H k F; [|discriminate].
      unfold commit in H. destruct (FileRepository.writable this); [|discriminate].
      injection H as <- <-.
      apply findIndex_Some in F as (old & Hold & Fold & Hmin).
      rewrite (list_lookup_total_correct _ _ _ Hold).
      exists rs, k, old, (FilePost_updated now post old).
      repeat split; auto.
      intros id j y Hj Hy Hm. cbn in Hm |- *.
      apply number_eqb_eq in Hm. apply number_eqb_eq in Fold.
      rewrite <- Hm, Fold. now apply (Hmin j y).
    + destruct (FileFacts.unavailable this R) as (_ & _ & _ & E & _).
      rewrite E in H. discriminate.
Qed.

End Public.

(** X8. What [getPostById] returns for an integer id is a post with that
    id, and one of the posts [getAllPosts] lists. *)
Theorem getPostById_sound (B : backend) (this : state B) (z : Z) (X : PostModel.t) :
  fst (getPostById B (Num z) this) = Resolved (Some X) ->
  PostModel.id X = Num z /\
  exists posts, fst (getAllPosts B this) = Resolved posts /\ X ∈ posts.
Proof.
  intros H. apply getPostById_resolved in H as (rs & R & E).
  destruct (find (matches B (Num z)) rs) as [r|] eqn:F; [|discriminate].
  injection E as ->. apply find_Some in F as (i & Hi & Fr & _).
  split; [now apply matches_public_id|].
  exists (toPostModel B <$> rs). split; [now apply getAllPosts_records|].
  apply list_elem_of_fmap_2. now apply list_elem_of_lookup_2 with i.
Qed.

Lemma getPostById_sound_witness :
  exists X, fst (getPostById InMemory (Num 2) InMemoryRepository.init)
              = Resolved (Some X) /\
            PostModel.id X = Num 2.
Proof.
  eexists. split; [reflexivity|].
  exact (proj1 (getPostById_sound InMemory InMemoryRepository.init 2 _ eq_refl)).
Defined.



(** X10. [createPost] appends: when it returns the post [X], the list of
    [getAllPosts] is the former list followed by [X]. *)
Theorem createPost_then_getAllPosts (B : backend) (this this' : state B)
  (now1 now2 : Z) (post : CreatePostModel.t) (X : PostModel.t) :
  createPost B now1 now2 post this = (Resolved X, this') ->
  exists posts, fst (getAllPosts B this) = Resolved posts /\
                fst (getAllPosts B this') = Resolved (posts ++ [X]).
Proof.
  intros H. apply createPost_resolved in H as (rs & r & R & R' & ->).
  exists (toPostModel B <$> rs). split; [now apply getAllPosts_records|].
  rewrite (getAllPosts_records B this' _ R'), fmap_app. reflexivity.
Qed.

Lemma createPost_then_getAllPosts_witness :
  exists X this',
    createPost File 1700000000000 1700000000000 alice
      (FileRepository.init (Some []) true) = (Resolved X, this') /\
    exists posts,
      fst (getAllPosts File (FileRepository.init (Some []) true)) = Resolved posts /\
      fst (getAllPosts File this') = Resolved (posts ++ [X]).
Proof.
  exists (toPostModel File (FilePost_created 1700000000000 1700000000000 alice [])),
    (FileRepository.mk
       (Some [FilePost_created 1700000000000 1700000000000 alice []])
       (Some [FilePost_created 1700000000000 1700000000000 alice []]) true).
  split; [reflexivity|].
  apply (createPost_then_getAllPosts File (FileRepository.init (Some []) true)
           _ 1700000000000 1700000000000 alice).
  reflexivity.
Defined.

(** X11. [deletePost] removes exactly one post: when [deletePost] of an
    integer id is fulfilled, it resolves to that id and the list of
    [getAllPosts] is the former list without one post that carried the
    id, the other posts being kept in their order. *)
Theorem deletePost_then_getAllPosts (B : backend) (this this' : state B)
  (z : Z) (v : number) :
  deletePost B (Num z) this = (Resolved v, this') ->
  v = Num z /\
  exists posts k X,
    fst (getAllPosts B this) = Resolved posts /\
    posts !! k = Some X /\ PostModel.id X = Num z /\
    fst (getAllPosts B this') = Resolved (delete k posts).
Proof.
  intros H. apply deletePost_resolved in H as (rs & k & r & R & F & Hr & R' & Hv).
  split; [now apply (Hv z)|].
  apply findIndex_Some in F as (r' & Hr' & Fr & _).
  rewrite Hr in Hr'. injection Hr' as <-.
  exists (toPostModel B <$> rs), k, (toPostModel B r).
  split; [now apply getAllPosts_records|].
  split; [now rewrite list_lookup_fmap, Hr|].
  split; [now apply matches_public_id|].
  rewrite (getAllPosts_records B this' _ R'). unfold splice.
  now rewrite list_fmap_delete.
Qed.

Lemma deletePost_then_getAllPosts_witness :
  exists this',
    deletePost InMemory (Num 1) InMemoryRepository.init = (Resolved (Num 1), this') /\
    Num 1 = Num 1 /\
    exists posts k X,
      fst (getAllPosts InMemory InMemoryRepository.init) = Resolved posts /\
      posts !! k = Some X /\ PostModel.id X = Num 1 /\
      fst (getAllPosts InMemory this') = Resolved (delete k posts).
Proof.
  eexists. split; [reflexivity|].
  apply (deletePost_then_getAllPosts InMemory InMemoryRepository.init _ 1 (Num 1)).
  reflexivity.
Defined.



(** X13. [updatePost] rewrites one post: when it returns [X], the list of
    [getAllPosts] is the former list with [X] written at one position,
    which held a post with the id of [X]. *)
Theorem updatePost_then_getAllPosts (B : backend) (this this' : state B)
  (now : Z) (post : UpdatePostModel.t) (X : PostModel.t) :
  updatePost B now post this = (Resolved X, this') ->
  exists posts k Y,
    fst (getAllPosts B this) = Resolved posts /\
    posts !! k = Some Y /\ PostModel.id Y = PostModel.id X /\
    fst (getAllPosts B this') = Resolved (<[k := X]> posts).
Proof.
  intros H.
  apply updatePost_resolved in H
    as (rs & k & old & r & R & Hold & R' & -> & Hid & _).
  exists (toPostModel B <$> rs), k, (toPostModel B old).
  split; [now apply getAllPosts_records|].
  split; [now rewrite list_lookup_fmap, Hold|]. split; [now rewrite Hid|].
  rewrite (getAllPosts_records B this' _ R'). now rewrite list_fmap_insert.
Qed.

Lemma updatePost_then_getAllPosts_witness :
  exists X this',
    updatePost InMemory 1700000000000 (retitle 2) InMemoryRepository.init
      = (Resolved X, this') /\
    exists posts k Y,
      fst (getAllPosts InMemory InMemoryRepository.init) = Resolved posts /\
      posts !! k = Some Y /\ PostModel.id Y = PostModel.id X /\
      fst (getAllPosts InMemory this') = Resolved (<[k := X]> posts).
Proof.
  do 2 eexists. split; [reflexivity|].
  apply (updatePost_then_getAllPosts InMemory InMemoryRepository.init _
           1700000000000 (retitle 2)).
  reflexivity.
Defined.

(** X14. [createPost] never changes what an id already resolves to: a
    post that [getPostById] returned before the call is returned for the
    same id after it. *)
Theorem createPost_keeps_lookups (B : backend) (this this' : state B)
  (now1 now2 : Z) (post : CreatePostModel.t) (X Y : PostModel.t) (id : number) :
  fst (getPostById B id this) = Resolved (Some Y) ->
  createPost B now1 now2 post this = (Resolved X, this') ->
  fst (getPostById B id this') = Resolved (Some Y).
Proof.
  intros Hget H. apply createPost_resolved in H as (rs & r & R & R' & ->).
  rewrite (getPostById_find B this rs id R) in Hget.
  rewrite (getPostById_find B this' _ id R'), find_app.
  destruct (find (matches B id) rs); [exact Hget|discriminate].
Qed.

Lemma createPost_keeps_lookups_witness :
  exists Y X this',
    fst (getPostById InMemory (Num 2) InMemoryRepository.init) = Resolved (Some Y) /\
    createPost InMemory 1700000000000 1700000000000 alice InMemoryRepository.init
      = (Resolved X, this') /\
    fst (getPostById InMemory (Num 2) this') = Resolved (Some Y).
Proof.
  do 3 eexists. split; [reflexivity|]. split; [reflexivity|].
  apply (createPost_keeps_lookups InMemory InMemoryRepository.init _
           1700000000000 1700000000000 alice _ _ (Num 2) eq_refl eq_refl).
Defined.

(** X15. [deletePost] of one integer id never changes what another
    integer id resolves to. *)
Theorem deletePost_keeps_other_lookups (B : backend) (this this' : state B)
  (z z' : Z) (v : number) :
  z <> z' ->
  deletePost B (Num z) this = (Resolved v, this') ->
  fst (getPostById B (Num z') this') = fst (getPostById B (Num z') this).
Proof.
  intros Hne H.
  apply deletePost_resolved in H as (rs & k & r & R & F & Hr & R' & _).
  rewrite (getPostById_find B this rs _ R), (getPostById_find B this' _ _ R').
  do 2 f_equal. apply (find_splice _ rs k r Hr).
  apply findIndex_Some in F as (r' & Hr' & Fr & _).
  rewrite Hr in Hr'. injection Hr' as <-.
  destruct (matches B (Num z') r) eqn:M; [|reflexivity].
  apply matches_public_id in M. apply matches_public_id in Fr. congruence.
Qed.

Lemma deletePost_keeps_other_lookups_witness :
  exists this',
    deletePost InMemory (Num 1) InMemoryRepository.init = (Resolved (Num 1), this') /\
    fst (getPostById InMemory (Num 2) this')
      = fst (getPostById InMemory (Num 2) InMemoryRepository.init).
Proof.
  eexists. split; [reflexivity|].
  apply (deletePost_keeps_other_lookups InMemory InMemoryRepository.init _ 1 2
           (Num 1)); [discriminate|reflexivity].
Defined.

Section Dense.

(** The test of a backend on a record that carries the id [n]. *)
Lemma matches_internal_id (B : backend) (n z : Z) (r : record B) :
  has_internal_id B n r -> matches B (Num z) r = Z.eqb n z.
Proof.
  destruct B; cbn; intros ->; [apply String_eqb_Num|reflexivity].
Qed.

Lemma public_internal_id (B : backend) (n : Z) (r : record B) :
  has_internal_id B n r -> PostModel.id (toPostModel B r) = Num n.
Proof.
  destruct B; cbn; intros ->; [apply Number_String|reflexivity].
Qed.

(** In a collection whose ids count up from [o + 1], the record found for
    an id is the one at the position the id names. *)
Lemma find_counting (B : backend) (o z : Z) (rs : list (record B)) :
  (forall i r, rs !! i = Some r -> has_internal_id B (o + Z.of_nat i + 1) r) ->
  find (matches B (Num z)) rs
  = if (o + 1 <=? z)%Z then rs !! Z.to_nat (z - o - 1) else None.
Proof.
  revert o. induction rs as [|a rs IH]; intros o H.
  - cbn. now destruct (o + 1 <=? z)%Z.
  - cbn [find].
    rewrite (matches_internal_id B (o + 1) z a)
      by (replace (o + 1)%Z with (o + Z.of_nat 0 + 1)%Z by lia; now apply H).
    destruct (Z.eqb_spec (o + 1) z) as [<-|Hne].
    + rewrite Z.leb_refl. now replace (o + 1 - o - 1)%Z with 0%Z by lia.
    + rewrite (IH (o + 1)%Z).
      * destruct (Z.leb_spec (o + 1) z), (Z.leb_spec (o + 1 + 1) z); try lia;
          [|reflexivity].
        replace (Z.to_nat (z - o - 1)) with (S (Z.to_nat (z - (o + 1) - 1))) by lia.
        reflexivity.
      * intros i r Hi.
        replace (o + 1 + Z.of_nat i + 1)%Z with (o + Z.of_nat (S i) + 1)%Z by lia.
        now apply H.
Qed.

Lemma dense_app (B : backend) (rs : list (record B)) (r : record B) :
  dense B rs -> has_internal_id B (Z.of_nat (length rs) + 1) r ->
  dense B (rs ++ [r]).
Proof.
  intros D Hr i x Hx. apply lookup_app_Some in Hx as [Hx|[Hlen Hx]].
  - now apply D.
  - apply list_lookup_singleton_Some in Hx as [Hi <-].
    replace i with (length rs) by lia. exact Hr.
Qed.

Lemma dense_insert (B : backend) (rs : list (record B)) (k : nat) (old r : record B) :
  dense B rs -> rs !! k = Some old ->
  (forall n, has_internal_id B n old -> has_internal_id B n r) ->
  dense B (<[k := r]> rs).
Proof.
  intros D Hold Hr i x Hx. destruct (decide (k = i)) as [<-|Hne].
  - rewrite list_lookup_insert_eq in Hx by (eapply lookup_lt_Some; eauto).
    injection Hx as <-. apply Hr. now apply D.
  - rewrite list_lookup_insert_ne in Hx by exact Hne. now apply D.
Qed.

(** A call other than [deletePost] keeps the ids counting up from 1. *)
Lemma run_dense (B : backend) (this : state B) (rs : list (record B)) (c : call) :
  is_delete c = false -> records B this = Some rs -> dense B rs ->
  exists rs', records B (run B c this) = Some rs' /\ dense B rs'.
Proof.
  intros Hc R D. destruct B.
  - cbn in R. injection R as <-. destruct this as [posts]. cbn in D.
    destruct c as [|id|now1 now2 post|now post|id]; try discriminate Hc; cbn [run].
    + eexists. split; [reflexivity|exact D].
    + eexists. split; [reflexivity|exact D].
    + eexists. split; [reflexivity|].
      apply (dense_app InMemory); [exact D|reflexivity].
    + destruct posts as [|first rest].
      * eexists. split; [reflexivity|exact D].
      * cbn [updatePost]. rewrite InMemoryFacts.updatePost_cons.
        eexists. split; [reflexivity|].
        apply (dense_insert InMemory (first :: rest) 0 first); auto.
  - destruct c as [|id|now1 now2 post|now post|id]; try discriminate Hc; cbn [run].
    + cbn [getAllPosts]. rewrite (FileFacts.getAllPosts_available _ _ R).
      eexists. split; [reflexivity|exact D].
    + cbn [getPostById]. rewrite (FileFacts.getPostById_available _ _ _ R).
      eexists. split; [reflexivity|exact D].
    + cbn [createPost]. rewrite (FileFacts.createPost_available _ _ _ _ _ R).
      eexists. split; [apply FileFacts.records_commit|].
      apply (dense_app File); [exact D|reflexivity].
    + cbn [updatePost]. rewrite (FileFacts.updatePost_available _ _ _ _ R).
      match goal with
      | |- context [findIndex ?f ?l] => destruct (findIndex f l) as [k|] eqn:F
      end.
      * eexists. split; [apply FileFacts.records_commit|].
        apply findIndex_Some in F as (old & Hold & _).
        rewrite (list_lookup_total_correct _ _ _ Hold).
        apply (dense_insert File rs k old); auto.
      * eexists. split; [reflexivity|exact D].
Qed.

End Dense.

(** X16. As long as [deletePost] is not called, the stored ids stay
    1, 2, ... in the order of the collection: a sequence of calls without
    [deletePost], from a state whose ids count up from 1, ends in such a
    state. *)
Theorem no_delete_keeps_ids_dense (B : backend) (cs : list call) (this : state B)
  (rs : list (record B)) :
  forallb (fun c => negb (is_delete c)) cs = true ->
  records B this = Some rs -> dense B rs ->
  exists rs', records B (run_all B cs this) = Some rs' /\ dense B rs'.
Proof.
  revert this rs. induction cs as [|c cs IH]; intros this rs Hcs R D.
  - exists rs. split; assumption.
  - cbn in Hcs. apply andb_true_iff in Hcs as [Hc Hcs].
    apply negb_true_iff in Hc.
    destruct (run_dense B this rs c Hc R D) as (rs1 & R1 & D1).
    cbn [run_all]. now apply (IH _ rs1).
Qed.

Lemma no_delete_keeps_ids_dense_witness :
  exists rs',
    records InMemory
      (run_all InMemory
         [CreatePost 1700000000000 1700000000000 alice;
          UpdatePost 1700000000001 (retitle 2); GetAllPosts]
         InMemoryRepository.init) = Some rs' /\
    dense InMemory rs'.
Proof.
  apply (no_delete_keeps_ids_dense InMemory _ InMemoryRepository.init
           [seed_first; seed_second]); [reflexivity|reflexivity|].
  intros [|[|i]] r; cbn; intros [= <-]; reflexivity.
Defined.

(** X17. When the stored ids are 1, 2, ... in order, ids are positions:
    [getPostById(z)] returns the post at position [z] of the collection,
    and the absent value when [z] is not a position. *)
Theorem getPostById_dense (B : backend) (this : state B) (rs : list (record B))
  (z : Z) :
  records B this = Some rs -> dense B rs ->
  fst (getPostById B (Num z) this)
  = Resolved (toPostModel B <$>
              (if (1 <=? z)%Z then rs !! Z.to_nat (z - 1) else None)).
Proof.
  intros R D. rewrite (getPostById_find B this rs (Num z) R).
  rewrite (find_counting B 0 z rs).
  - cbn [Z.add]. now replace (z - 0 - 1)%Z with (z - 1)%Z by lia.
  - intros i r Hi. cbn [Z.add]. now apply D.
Qed.

Lemma getPostById_dense_witness :
  fst (getPostById InMemory (Num 2) InMemoryRepository.init)
    = Resolved (Some (toPostModel InMemory seed_second)) /\
  fst (getPostById InMemory (Num 0) InMemoryRepository.init) = Resolved None.
Proof.
  assert (dense InMemory [seed_first; seed_second]) as D.
  { intros [|[|i]] r; cbn; intros [= <-]; reflexivity. }
  split.
  - exact (getPostById_dense InMemory InMemoryRepository.init _ 2 eq_refl D).
  - exact (getPostById_dense InMemory InMemoryRepository.init _ 0 eq_refl D).
Defined.

(** X18. Ids are reused: in a non-empty collection whose ids are
    1, 2, ... in order, deleting the post with the last id and creating a
    post gives the new post the id that was just deleted. *)
Theorem deleted_last_id_is_reused (B : backend) (this : state B)
  (rs : list (record B)) (now1 now2 : Z) (post : CreatePostModel.t) :
  records B this = Some rs -> dense B rs -> rs <> [] -> writable B this ->
  exists this1 X this2,
    deletePost B (Num (Z.of_nat (length rs))) this
      = (Resolved (Num (Z.of_nat (length rs))), this1) /\
    createPost B now1 now2 post this1 = (Resolved X, this2) /\
    PostModel.id X = Num (Z.of_nat (length rs)).
Proof.
  intros R D Hne W.
  assert (exists r, rs !! (length rs - 1)%nat = Some r) as [r Hr].
  { apply lookup_lt_is_Some. destruct rs; [congruence|cbn; lia]. }
  assert (exists k, findIndex (matches B (Num (Z.of_nat (length rs)))) rs = Some k)
    as [k Hk].
  { apply (findIndex_is_Some _ rs r); [now apply list_elem_of_lookup_2 with (length rs - 1)%nat|].
    rewrite (matches_internal_id B _ _ r (D _ r Hr)). apply Z.eqb_eq.
    destruct rs; [congruence|cbn [length]; lia]. }
  assert (length (delete k rs) = (length rs - 1)%nat) as Hlen.
  { apply length_delete. apply findIndex_Some in Hk as (x & Hx & _). eauto. }
  assert (Z.of_nat (length rs - 1) + 1 = Z.of_nat (length rs))%Z as Harith.
  { destruct rs; [congruence|cbn [length]; lia]. }
  destruct B.
  - cbn in R. injection R as <-.
    cbn [deletePost createPost]. unfold InMemoryRepository.deletePost.
    match goal with
    | |- context [findIndex ?f ?l] =>
        replace (findIndex f l) with (Some k) by (symmetry; exact Hk)
    end.
    do 3 eexists. split; [reflexivity|].
    split; [reflexivity|]. cbn. unfold splice. rewrite Number_String.
    cbn in Hlen. rewrite Hlen. f_equal. exact Harith.
  - cbn [deletePost createPost].
    rewrite (FileFacts.deletePost_available _ _ _ R). cbn in W.
    match goal with
    | |- context [findIndex ?f ?l] =>
        replace (findIndex f l) with (Some k) by (symmetry; exact Hk)
    end.
    pose proof Hk as Hk'. apply findIndex_Some in Hk' as (x & Hx & Fx & _).
    rewrite (list_lookup_total_correct _ _ _ Hx), (number_eqb_eq _ _ Fx).
    unfold commit. rewrite W. do 3 eexists. split; [reflexivity|].
    rewrite (FileFacts.createPost_available _ _ _
               (FileRepository.mk (Some (splice k rs)) (Some (splice k rs)) true)
               (splice k rs) eq_refl).
    unfold commit. cbn [FileRepository.writable].
    split; [reflexivity|].
    change (Num (Z.of_nat (length (delete k rs)) + 1) = Num (Z.of_nat (length rs))).
    rewrite Hlen. f_equal. exact Harith.
Qed.

Lemma deleted_last_id_is_reused_witness :
  exists this1 X this2,
    deletePost InMemory (Num 2) InMemoryRepository.init = (Resolved (Num 2), this1) /\
    createPost InMemory 1700000000000 1700000000000 alice this1
      = (Resolved X, this2) /\
    PostModel.id X = Num 2.
Proof.
  apply (deleted_last_id_is_reused InMemory InMemoryRepository.init
           [seed_first; seed_second] 1700000000000 1700000000000 alice eq_refl).
  - intros [|[|i]] r; cbn; intros [= <-]; reflexivity.
  - discriminate.
  - exact I.
Defined.

Section Reads.



End Reads.



(** The mock of the main script makes [DoSomething] print nothing. *)
Lemma DoSomething_mockRepo :
  MyAwesomeSerive.DoSomething mockRepo.getAllPosts mockRepo.getPostById tt
  = (Resolved tt, [], tt).
Proof. reflexivity. Qed.

Section Proper.

Lemma proper_created (B : backend) (now1 now2 : Z) (post : CreatePostModel.t)
  (rs : list (record B)) (r : record B) :
  (- max_time <= now1 <= max_time)%Z -> (- max_time <= now2 <= max_time)%Z ->
  match B return record B -> list (record B) -> Prop with
  | InMemory => fun r rs => r = MemoryPost_created now1 now2 post rs
  | File => fun r rs => r = FilePost_created now1 now2 post rs
  end r rs ->
  proper_post (toPostModel B r).
Proof.
  intros H1 H2. destruct B; intros ->.
  - exists (Z.of_nat (length rs) + 1)%Z, now1, now2. cbn.
    rewrite Number_String, !Date_of_clock_reading by lia. auto.
  - exists (Z.of_nat (length rs) + 1)%Z, now1, now2. cbn. auto.
Qed.

Lemma proper_updated_MemoryPost (now : Z) (post : UpdatePostModel.t)
  (old : MemoryPost.t) :
  (- max_time <= now <= max_time)%Z ->
  proper_post (toPostModel InMemory old) ->
  proper_post (toPostModel InMemory (MemoryPost_updated now post old)).
Proof.
  intros H (k & a & u & Hk & Ha & Hu). exists k, a, now. cbn in *.
  rewrite Date_of_clock_reading by lia. auto.
Qed.

Lemma proper_updated_FilePost (now : Z) (post : UpdatePostModel.t) (old : FilePost.t) :
  proper_post (toPostModel File old) ->
  proper_post (toPostModel File (FilePost_updated now post old)).
Proof.
  intros (k & a & u & Hk & Ha & Hu). exists k, a, now. cbn in *. auto.
Qed.

Lemma proper_fresh (B : backend) (this : state B) : fresh B this -> proper B this.
Proof.
  destruct B; cbn.
  - intros ->. repeat constructor.
    + exists 1%Z, seed_time, seed_time. repeat split; vm_compute; reflexivity.
    + exists 2%Z, seed_time, seed_time. repeat split; vm_compute; reflexivity.
  - intros [w [->| ->]]; cbn; split; intros posts [= <-]; constructor.
Qed.

Lemma proper_records (B : backend) (this : state B) (rs : list (record B)) :
  proper B this -> records B this = Some rs ->
  Forall (fun r => proper_post (toPostModel B r)) rs.
Proof.
  destruct B; cbn.
  - intros H [= <-]. exact H.
  - intros (Hc & Hd). destruct (FileRepository.FilePosts this); intros E.
    + injection E as <-. now apply Hc.
    + now apply Hd.
Qed.

Lemma proper_loaded (this : FileRepository.t) (posts : list FilePost.t) :
  proper File this -> Forall (fun r => proper_post (toPostModel File r)) posts ->
  proper File (loaded this posts).
Proof.
  intros (Hc & Hd) Hp. split; [|exact Hd]. intros ? [= <-]. exact Hp.
Qed.

Lemma proper_commit {A : Type} (this : FileRepository.t) (posts : list FilePost.t)
  (a : A) :
  proper File this -> Forall (fun r => proper_post (toPostModel File r)) posts ->
  proper File (snd (commit this posts a)).
Proof.
  intros (Hc & Hd) Hp. unfold commit.
  destruct (FileRepository.writable this); cbn.
  - split; intros ? [= <-]; exact Hp.
  - split; [intros ? [= <-]; exact Hp|exact Hd].
Qed.

(** A call whose clock readings are time values keeps the posts proper. *)
Lemma proper_run (B : backend) (this : state B) (c : call) :
  proper B this -> clock_valid c -> proper B (run B c this).
Proof.
  intros Hp Hc. destruct B.
  - destruct this as [posts]. cbn in Hp.
    destruct c as [|id|now1 now2 post|now post|id]; cbn in Hc; cbn [run].
    + exact Hp.
    + exact Hp.
    + cbn. apply Forall_app. split; [exact Hp|]. apply Forall_singleton.
      now apply (proper_created InMemory now1 now2 post posts).
    + destruct posts as [|first rest]; [exact Hp|].
      cbn [updatePost]. rewrite InMemoryFacts.updatePost_cons. cbn.
      inversion Hp as [|? ? Hfirst Hrest]; subst. constructor; [|exact Hrest].
      now apply proper_updated_MemoryPost.
    + cbn [deletePost]. unfold InMemoryRepository.deletePost. cbn.
      destruct (findIndex _ posts) as [k|]; cbn; [now apply Forall_delete|exact Hp].
  - destruct (records File this) as [rs|] eqn:R.
    + pose proof (proper_records File this rs Hp R) as Hrs.
      destruct c as [|id|now1 now2 post|now post|id]; cbn in Hc; cbn [run].
      * cbn [getAllPosts]. rewrite (FileFacts.getAllPosts_available _ _ R).
        now apply proper_loaded.
      * cbn [getPostById]. rewrite (FileFacts.getPostById_available _ _ _ R).
        now apply proper_loaded.
      * cbn [createPost]. rewrite (FileFacts.createPost_available _ _ _ _ _ R).
        apply proper_commit; [exact Hp|]. apply Forall_app. split; [exact Hrs|].
        apply Forall_singleton.
        now apply (proper_created File now1 now2 post rs).
      * cbn [updatePost]. rewrite (FileFacts.updatePost_available _ _ _ _ R).
        match goal with
        | |- context [findIndex ?f ?l] => destruct (findIndex f l) as [k|] eqn:F
        end.
        -- apply proper_commit; [exact Hp|].
           apply findIndex_Some in F as (old & Hold & _).
           rewrite (list_lookup_total_correct _ _ _ Hold).
           apply Forall_insert; [exact Hrs|].
           apply proper_updated_FilePost.
           exact (Forall_lookup_1 _ _ _ _ Hrs Hold).
        -- now apply proper_loaded.
      * cbn [deletePost]. rewrite (FileFacts.deletePost_available _ _ _ R).
        match goal with
        | |- context [findIndex ?f ?l] => destruct (findIndex f l) as [k|] eqn:F
        end.
        -- apply proper_commit; [exact Hp|]. now apply Forall_delete.
        -- now apply proper_loaded.
    + destruct (run_File_unavailable this c R) as [_ ->]. exact Hp.
Qed.

Lemma free_session_proper (B : backend) (this : state B) :
  free_session B this -> proper B this.
Proof.
  induction 1 as [this Hf|this c _ IH Hc].
  - now apply proper_fresh.
  - now apply proper_run.
Qed.

End Proper.

(** X20. The translations to the public model never produce [NaN] or an
    invalid date on the records the program makes: in a state reached
    from a fresh backend (the in-memory seed, or a file repository with
    nothing to load) by any calls, whatever the clock does between its
    readings, every post that [getAllPosts] lists has an integer id and
    two valid timestamps. *)
Theorem listed_posts_are_proper (B : backend) (this : state B)
  (posts : list PostModel.t) (X : PostModel.t) :
  free_session B this ->
  fst (getAllPosts B this) = Resolved posts -> X ∈ posts ->
  exists k a u,
    PostModel.id X = Num k /\ PostModel.created X = Time a /\
    PostModel.updated X = Time u.
Proof.
  intros Hs H HX. apply getAllPosts_resolved in H as (rs & R & ->).
  apply list_elem_of_fmap in HX as (r & -> & Hr).
  pose proof (proper_records B this rs (free_session_proper B this Hs) R) as Hrs.
  rewrite Forall_forall in Hrs. exact (Hrs r Hr).
Qed.

Lemma listed_posts_are_proper_witness :
  exists k a u,
    PostModel.id (toPostModel InMemory
                    (MemoryPost_created 1700000000001 1700000000000 alice
                       [seed_first; seed_second])) = Num k /\
    PostModel.created (toPostModel InMemory
                    (MemoryPost_created 1700000000001 1700000000000 alice
                       [seed_first; seed_second])) = Time a /\
    PostModel.updated (toPostModel InMemory
                    (MemoryPost_created 1700000000001 1700000000000 alice
                       [seed_first; seed_second])) = Time u.
Proof.
  apply (listed_posts_are_proper InMemory
           (run InMemory (CreatePost 1700000000001 1700000000000 alice)
              InMemoryRepository.init)
           (toPostModel InMemory <$>
              [seed_first; seed_second;
               MemoryPost_created 1700000000001 1700000000000 alice
                 [seed_first; seed_second]])).
  - apply (free_session_run InMemory InMemoryRepository.init
             (CreatePost 1700000000001 1700000000000 alice)).
    + apply free_session_start. reflexivity.
    + cbn. unfold max_time. lia.
  - reflexivity.
  - apply list_elem_of_fmap_2. do 2 apply list_elem_of_further. apply list_elem_of_here.
Defined.
